(** * Reconciliation, risk scoring and cash-flow forecasting

    A shallow embedding of the computational core of the dashboards:

    - [Forecast]: [create_cash_flow_forecast] of [utils/cash_flow_forecast.py]
      (baseline rates, scenario resolution, runway, headline ending cash and
      the period-by-period projection loop);
    - [Risk]: the risk-analysis block of [pages/qbo_dashboard.py]
      (pivot of invoices and payments, payment ratio, risk score, [pd.cut]);
    - [Combine]: [combine_deals] of [scripts/combine_hubspot_mca.py] together
      with the missing-loan-id test of [pages/audit.py].

    Numbers.  Python's floats and ints are idealised as exact rationals [Q]:
    rounding is not modelled.  Where the source divides pandas/NumPy values
    that may be zero, the IEEE results [inf] and [nan] are modelled
    explicitly (type [Risk.np_float]). *)

From Stdlib Require Import QArith Qabs ZArith List String Ascii Bool Lia Lqa.
From Stdlib Require Import Sorted.
Import ListNotations.

Local Open Scope Q_scope.

(** ** Python comparisons and helpers on rationals *)

(** [x < y] as a boolean. *)
Definition Qltb (x y : Q) : bool := negb (Qle_bool y x).

(** Python's [max(a, b)]: the first argument is kept unless the second is
    strictly greater. *)
Definition py_max (a b : Q) : Q := if Qltb a b then b else a.

(** Python's [abs]. *)
Definition py_abs (x : Q) : Q := Qabs x.

(** [s in names] for a list of strings ([Series.isin]). *)
Definition isin (s : string) (names : list string) : bool :=
  existsb (String.eqb s) names.

(** * The cash-flow forecaster ([utils/cash_flow_forecast.py]) *)

Module Forecast.

(** ** Baseline estimation *)

(** [notna]: a value is present ([None] stands for [NaT] / [NaN]). *)
Definition notna {A : Type} (x : option A) : bool :=
  match x with Some _ => true | None => false end.

(** A row of [qbo_df] after the two coercions at the top of the function:
    [txn_date] is a timestamp in nanoseconds ([None] is [NaT]) and
    [total_amount] a number ([None] is [NaN]). *)
Record qbo_row : Type := mk_qbo_row {
  transaction_type : string;
  customer_name : string;
  txn_date : option Z;
  total_amount : option Q
}.

(** A row of [closed_won_df] after its coercions. *)
Record deal_row : Type := mk_deal_row {
  date_created : option Z;
  amount : option Q
}.

(** The boolean mask that selects [customer_payments]. *)
Definition is_customer_payment (r : qbo_row) : bool :=
  isin (transaction_type r) ["Payment"; "Receipt"]%string
  && negb (isin (customer_name r) ["CSL"; "VEEM"]%string)
  && notna (txn_date r).

Definition customer_payments (qbo_df : list qbo_row) : list qbo_row :=
  filter is_customer_payment qbo_df.

(** The values of a column that are present. *)
Fixpoint present {A : Type} (column : list (option A)) : list A :=
  match column with
  | [] => []
  | Some x :: rest => x :: present rest
  | None :: rest => present rest
  end.

(** [Series.min()] and [Series.max()] of a datetime column, [NaT] skipped;
    [None] when nothing is left. *)
Definition series_min (column : list (option Z)) : option Z :=
  match present column with
  | [] => None
  | t :: rest => Some (fold_left Z.min rest t)
  end.

Definition series_max (column : list (option Z)) : option Z :=
  match present column with
  | [] => None
  | t :: rest => Some (fold_left Z.max rest t)
  end.

Definition NS_PER_DAY : Z := 86400000000000.

(** [Timedelta.days]: whole days, rounded towards minus infinity. *)
Definition timedelta_days (delta : Z) : Z := delta / NS_PER_DAY.

(** The calendar day of a timestamp. *)
Definition calendar_day (t : Z) : Z := t / NS_PER_DAY.

(** [(max - min).days + 1] over a datetime column. *)
Definition span_days (column : list (option Z)) : option Z :=
  match series_min column, series_max column with
  | Some min_date, Some max_date =>
      Some (timedelta_days (max_date - min_date) + 1)%Z
  | _, _ => None
  end.

(** [Series.sum()], [NaN] skipped. *)
Fixpoint series_sum (column : list (option Q)) : Q :=
  match column with
  | [] => 0
  | Some x :: rest => x + series_sum rest
  | None :: rest => series_sum rest
  end.

(** [Series.abs()]. *)
Definition series_abs (column : list (option Q)) : list (option Q) :=
  map (option_map py_abs) column.

(** [customer_payments["total_amount"].abs().sum()]. *)
Definition total_inflows (qbo_df : list qbo_row) : Q :=
  series_sum (series_abs (map total_amount (customer_payments qbo_df))).

Definition DAYS_PER_MONTH : Q := 3044 # 100.

Record inflow_baseline : Type := mk_inflow_baseline {
  has_qbo_data : bool;
  weekly_inflow_rate : Q;
  monthly_inflow_rate : Q
}.

(** The block "Process QBO data if available".  [qbo_df] is [None] when the
    argument is [None] or has no [txn_date] column. *)
Definition inflow_rates (qbo_df : option (list qbo_row)) : inflow_baseline :=
  let initial := mk_inflow_baseline false 0 0 in
  match qbo_df with
  | None | Some [] => initial
  | Some df =>
      match customer_payments df with
      | [] => initial
      | payments =>
          match span_days (map txn_date payments) with
          | Some total_days =>
              if (0 <? total_days)%Z then
                let total_inflows := total_inflows df in
                mk_inflow_baseline
                  true
                  (total_inflows / (inject_Z total_days / 7))
                  (total_inflows / (inject_Z total_days / DAYS_PER_MONTH))
              else mk_inflow_baseline true 0 0
          | None => mk_inflow_baseline true 0 0
          end
      end
  end.

Record deployment_baseline : Type := mk_deployment_baseline {
  total_deployed : Q;
  deal_count : nat;
  weekly_deployment_rate : Q;
  monthly_deployment_rate : Q;
  deals_per_week : Q;
  deals_per_month : Q
}.

(** The block "Process deals data" up to the rates; [None] is the branch
    "No valid deal data available for forecasting".  The mean and median deal
    sizes only seed widget defaults and are left out. *)
Definition deployment_rates (closed_won_df : list deal_row)
  : option deployment_baseline :=
  let closed_won_df := filter (fun d => notna (date_created d)) closed_won_df in
  match closed_won_df with
  | [] => None
  | _ =>
      match span_days (map date_created closed_won_df) with
      | Some deal_total_days =>
          let total_deployed := series_sum (map amount closed_won_df) in
          let deal_count := List.length closed_won_df in
          let count := inject_Z (Z.of_nat deal_count) in
          let positive := (0 <? deal_total_days)%Z in
          Some (mk_deployment_baseline
                  total_deployed
                  deal_count
                  (if positive
                   then total_deployed / (inject_Z deal_total_days / 7)
                   else 0)
                  (if positive
                   then total_deployed
                        / (inject_Z deal_total_days / DAYS_PER_MONTH)
                   else 0)
                  (if positive
                   then count / (inject_Z deal_total_days / 7)
                   else 0)
                  (if positive
                   then count / (inject_Z deal_total_days / DAYS_PER_MONTH)
                   else 0))
      | None => None
      end
  end.

(** ** Scenario resolution *)

Inductive deployment_method : Type :=
| DeployHistoricalAverage
| DeployConservative
| DeployAggressive
| DeployCustom.

Inductive inflow_method : Type :=
| InflowHistoricalAverage
| InflowConservative
| InflowOptimistic
| InflowCustom.

(** "Adjust deployment rate": the custom choice uses the lever
    [target_deals_per_period * avg_participation]. *)
Definition resolve_deployment_rate (method : deployment_method)
    (base_deployment target_deals_per_period avg_participation : Q) : Q :=
  let lever_based_deployment := target_deals_per_period * avg_participation in
  match method with
  | DeployHistoricalAverage => base_deployment
  | DeployConservative => base_deployment * (75 # 100)
  | DeployAggressive => base_deployment * (125 # 100)
  | DeployCustom => lever_based_deployment
  end.

(** "Adjust inflow rate". *)
Definition resolve_inflow_rate (has_qbo_data : bool) (method : inflow_method)
    (base_inflow custom_inflow : Q) : Q :=
  if has_qbo_data then
    match method with
    | InflowHistoricalAverage => base_inflow
    | InflowConservative => base_inflow * (75 # 100)
    | InflowOptimistic => base_inflow * (125 # 100)
    | InflowCustom => custom_inflow
    end
  else 0.

(** ** Projection loop *)

(** One row of [forecast_data].  The ["Date"] column only labels the row and
    is left out. *)
Record period : Type := mk_period {
  cash_position : Q;
  deployment : Q;
  inflows : Q;
  opex : Q;
  net_flow : Q
}.

Section Projection.

Variables deployment_rate inflow_rate opex_rate : Q.
Variables starting_cash min_cash_threshold : Q.

(** The guard of the [if] that constrains deployment. *)
Definition throttled (current_cash : Q) : bool :=
  Qltb (current_cash - deployment_rate - opex_rate) min_cash_threshold.

(** Body of [for date in dates[1:]]: the row appended for one period,
    computed from [current_cash] as it stands before the period. *)
Definition forecast_step (current_cash : Q) : period :=
  let period_deployment := deployment_rate in
  let period_inflows := inflow_rate in
  let period_opex := opex_rate in
  let period_deployment :=
    if Qltb (current_cash - period_deployment - period_opex)
            min_cash_threshold
    then py_max 0 (current_cash - min_cash_threshold - period_opex)
    else period_deployment in
  let period_net_flow := period_inflows - period_deployment - period_opex in
  let current_cash := current_cash + period_net_flow in
  {| cash_position := current_cash;
     deployment := period_deployment;
     inflows := period_inflows;
     opex := period_opex;
     net_flow := period_net_flow |}.

(** The loop over the [n] forecast periods, threading [current_cash]. *)
Fixpoint forecast_loop (n : nat) (current_cash : Q) : list period :=
  match n with
  | O => []
  | S n' =>
      let row := forecast_step current_cash in
      row :: forecast_loop n' (cash_position row)
  end.

(** The starting point appended before the loop. *)
Definition starting_row : period :=
  {| cash_position := starting_cash;
     deployment := 0;
     inflows := 0;
     opex := 0;
     net_flow := 0 |}.

(** [forecast_data] for a horizon of [forecast_horizon] periods
    ([dates] has [forecast_horizon + 1] entries, the first is skipped). *)
Definition forecast_data (forecast_horizon : nat) : list period :=
  starting_row :: forecast_loop forecast_horizon starting_cash.

(** The guard of the throttle is false in each of the [n] periods that
    start from [current_cash]. *)
Fixpoint never_throttled (n : nat) (current_cash : Q) : bool :=
  match n with
  | O => true
  | S n' =>
      negb (throttled current_cash)
      && never_throttled n' (cash_position (forecast_step current_cash))
  end.

(** ** Headline metrics *)

(** [net_flow_per_period = inflow_rate - deployment_rate - opex_rate]. *)
Definition net_flow_per_period : Q :=
  inflow_rate - deployment_rate - opex_rate.

(** The "Cash Runway" metric of the first column. *)
Inductive runway_metric : Type :=
| CashRunway (runway : Q)
| BelowMinimum
| CashFlowPositive (delta : Q).

Definition cash_runway : runway_metric :=
  if Qltb net_flow_per_period 0 then
    let usable_cash := starting_cash - min_cash_threshold in
    if Qltb 0 usable_cash
    then CashRunway (usable_cash / py_abs net_flow_per_period)
    else BelowMinimum
  else CashFlowPositive net_flow_per_period.

(** [ending_cash = starting_cash + (net_flow_per_period * forecast_horizon)]. *)
Definition ending_cash (forecast_horizon : nat) : Q :=
  starting_cash
  + net_flow_per_period * inject_Z (Z.of_nat forecast_horizon).

(** The value shown by the "Cash in N periods" metric:
    [max(0, ending_cash)]. *)
Definition displayed_ending_cash (forecast_horizon : nat) : Q :=
  py_max 0 (ending_cash forecast_horizon).

(** ["Break-even Deploy"]. *)
Definition breakeven_deployment : Q := inflow_rate - opex_rate.

End Projection.

(** The last ["Cash Position"] of a table ([default] for an empty one). *)
Definition final_cash_position (default : Q) (rows : list period) : Q :=
  cash_position (last rows (mk_period default 0 0 0 0)).

(** ** Warning and scenario analysis *)

(** Python's [min(a, b)] as pandas' [Series.min()] folds it. *)
Definition py_min (a b : Q) : Q := if Qltb b a then b else a.

(** [forecast_df["Cash Position"].min() < min_cash_threshold], the test that
    raises "Cash will fall below minimum reserve" (false on an empty
    column, whose minimum is [nan]). *)
Definition below_reserve_warning (rows : list period)
    (min_cash_threshold : Q) : bool :=
  match map cash_position rows with
  | [] => false
  | x :: rest => Qltb (fold_left py_min rest x) min_cash_threshold
  end.

Section ScenarioAnalysis.

Variables deployment_rate inflow_rate opex_rate : Q.
Variables starting_cash min_cash_threshold : Q.

(** Slider values, whole percents. *)
Variables deployment_change inflow_change : Z.

Definition adjusted_deployment : Q :=
  deployment_rate * (1 + inject_Z deployment_change / 100).

Definition adjusted_inflows : Q :=
  inflow_rate * (1 + inject_Z inflow_change / 100).

Definition adjusted_net_flow : Q :=
  adjusted_inflows - adjusted_deployment - opex_rate.

(** The first column of the adjusted metrics: the adjusted runway with its
    delta against the original one, nothing when no usable cash is left, or
    "Cash Positive". *)
Inductive adjusted_metric : Type :=
| AdjustedRunway (adjusted_runway delta : Q)
| NoAdjustedMetric
| CashPositive.

Definition adjusted_runway_metric : adjusted_metric :=
  if Qltb adjusted_net_flow 0 then
    let usable_cash := starting_cash - min_cash_threshold in
    if Qltb 0 usable_cash then
      let adjusted_runway := usable_cash / py_abs adjusted_net_flow in
      let delta :=
        if Qltb (net_flow_per_period deployment_rate inflow_rate opex_rate) 0
        then
          let original_runway :=
            usable_cash
            / py_abs (net_flow_per_period deployment_rate inflow_rate
                                          opex_rate) in
          adjusted_runway - original_runway
        else - adjusted_runway in
      AdjustedRunway adjusted_runway delta
    else NoAdjustedMetric
  else CashPositive.

Definition adjusted_ending (forecast_horizon : nat) : Q :=
  starting_cash + adjusted_net_flow * inject_Z (Z.of_nat forecast_horizon).

Definition delta_ending (forecast_horizon : nat) : Q :=
  adjusted_ending forecast_horizon
  - ending_cash deployment_rate inflow_rate opex_rate starting_cash
                forecast_horizon.

End ScenarioAnalysis.

End Forecast.

(** * The risk scorer ([pages/qbo_dashboard.py], "Risk Analysis") *)

Module Risk.

(** ** NumPy floating-point values

    Finite values are exact rationals; the two infinities and [nan] appear
    where NumPy divides by zero.  Signed zeros are not distinguished. *)
Inductive np_float : Type :=
| Fin (q : Q)
| PosInf
| NegInf
| NaN.

(** The sign of a value: [Gt] positive, [Lt] negative, [Eq] zero; [None]
    for [nan]. *)
Definition np_sign (x : np_float) : option comparison :=
  match x with
  | Fin q => Some (q ?= 0)
  | PosInf => Some Gt
  | NegInf => Some Lt
  | NaN => None
  end.

(** The infinity of a given sign; sign zero stands for an undefined result. *)
Definition signed_inf (c : comparison) : np_float :=
  match c with
  | Gt => PosInf
  | Lt => NegInf
  | Eq => NaN
  end.

Definition sign_mul (a b : comparison) : comparison :=
  match a, b with
  | Eq, _ | _, Eq => Eq
  | Gt, Gt | Lt, Lt => Gt
  | _, _ => Lt
  end.

Definition np_neg (x : np_float) : np_float :=
  match x with
  | Fin q => Fin (- q)
  | PosInf => NegInf
  | NegInf => PosInf
  | NaN => NaN
  end.

Definition np_add (x y : np_float) : np_float :=
  match x, y with
  | NaN, _ | _, NaN => NaN
  | Fin a, Fin b => Fin (a + b)
  | PosInf, NegInf | NegInf, PosInf => NaN
  | PosInf, _ | _, PosInf => PosInf
  | NegInf, _ | _, NegInf => NegInf
  end.

Definition np_sub (x y : np_float) : np_float := np_add x (np_neg y).

Definition np_mul (x y : np_float) : np_float :=
  match x, y with
  | Fin a, Fin b => Fin (a * b)
  | _, _ =>
      match np_sign x, np_sign y with
      | Some a, Some b => signed_inf (sign_mul a b)
      | _, _ => NaN
      end
  end.

(** Division: a finite non-zero value over zero is an infinity of its sign,
    zero over zero is [nan], a finite value over an infinity is zero. *)
Definition np_div (x y : np_float) : np_float :=
  match x, y with
  | NaN, _ | _, NaN => NaN
  | Fin a, Fin b => if Qeq_bool b 0 then signed_inf (a ?= 0) else Fin (a / b)
  | Fin _, _ => Fin 0
  | _, Fin b =>
      match np_sign x with
      | Some s => signed_inf (sign_mul s (if Qeq_bool b 0 then Gt else b ?= 0))
      | None => NaN
      end
  | _, _ => NaN
  end.

(** [x < y]; every comparison with [nan] is false. *)
Definition np_lt (x y : np_float) : bool :=
  match x, y with
  | NaN, _ | _, NaN => false
  | Fin a, Fin b => Qltb a b
  | NegInf, NegInf => false
  | NegInf, _ => true
  | _, PosInf => match x with PosInf => false | _ => true end
  | _, _ => false
  end.

Definition np_gt (x y : np_float) : bool := np_lt y x.

(** [np.where(cond, a, b)], one element: both [a] and [b] have been
    computed, [cond] selects. *)
Definition np_where {A : Type} (cond : bool) (a b : A) : A :=
  if cond then a else b.

(** ** From transactions to the pivot table *)

Record txn : Type := mk_txn {
  customer_name : string;
  transaction_type : string;
  total_amount : Q
}.

(** [risk_df]: invoices and payments of customers other than the house
    accounts, amounts replaced by their absolute value. *)
Definition risk_df (df : list txn) : list txn :=
  let risk_df :=
    filter (fun r => isin (transaction_type r) ["Invoice"; "Payment"]%string)
           df in
  let risk_df :=
    filter (fun r => negb (isin (customer_name r) ["CSL"; "VEEM"]%string))
           risk_df in
  map (fun r => mk_txn (customer_name r) (transaction_type r)
                       (py_abs (total_amount r)))
      risk_df.

(** A transaction type occurs in the frame, so [pivot_table] has a column
    for it. *)
Definition has_column (type : string) (risk_df : list txn) : bool :=
  existsb (fun r => String.eqb (transaction_type r) type) risk_df.

(** The cell of the pivot table for a customer and a type: the sum of the
    matching amounts, [fill_value = 0] when there is none. *)
Fixpoint pivot_cell (customer type : string) (risk_df : list txn) : Q :=
  match risk_df with
  | [] => 0
  | r :: rest =>
      if String.eqb (customer_name r) customer
         && String.eqb (transaction_type r) type
      then total_amount r + pivot_cell customer type rest
      else pivot_cell customer type rest
  end.

(** The index of the pivot table: each customer once (pandas sorts the
    index; the order plays no role below). *)
Definition pivot_index (risk_df : list txn) : list string :=
  nodup string_dec (map customer_name risk_df).

Record pivot_row : Type := mk_pivot_row {
  pivot_customer : string;
  Invoice : Q;
  Payment : Q
}.

Definition pivot_table (risk_df : list txn) : list pivot_row :=
  map (fun customer =>
         mk_pivot_row customer
                      (pivot_cell customer "Invoice" risk_df)
                      (pivot_cell customer "Payment" risk_df))
      (pivot_index risk_df).

(** [Series.max()]: [nan] on an empty column. *)
Definition series_max (column : list Q) : np_float :=
  match column with
  | [] => NaN
  | x :: rest => Fin (fold_left py_max rest x)
  end.

(** ** Payment ratio, risk score, risk category *)

Definition payment_ratio (invoice payment : Q) : np_float :=
  np_where (Qltb 0 invoice) (np_div (Fin payment) (Fin invoice)) (Fin 0).

Definition outstanding_balance (invoice payment : Q) : Q :=
  invoice - payment.

Definition risk_score (invoice payment : Q) (invoice_max : np_float)
  : np_float :=
  let payment_ratio := payment_ratio invoice payment in
  let outstanding_balance := outstanding_balance invoice payment in
  np_add
    (np_add
       (np_mul (np_sub (Fin 1) payment_ratio) (Fin (4 # 10)))
       (np_mul (np_div (Fin outstanding_balance) invoice_max) (Fin (3 # 10))))
    (np_where (np_lt payment_ratio (Fin (5 # 10))) (Fin (3 # 10)) (Fin 0)).

(** [np.searchsorted(bins, x, side="left")] on increasing [bins]: the number
    of edges strictly below [x]. *)
Definition searchsorted_left (bins : list Q) (x : Q) : nat :=
  List.length (filter (fun edge => Qltb edge x) bins).

(** [pd.cut(x, bins, labels)] with its defaults [right=True] and
    [include_lowest=False]: the label of the half-open interval
    [(bins[i-1], bins[i]]] that holds [x]; [None] (missing) for [nan] and
    for values at or below the first edge or above the last one. *)
Definition pd_cut (bins : list Q) (labels : list string) (x : np_float)
  : option string :=
  match x with
  | Fin q =>
      let ids := searchsorted_left bins q in
      if (ids =? 0)%nat || (ids =? List.length bins)%nat
      then None
      else nth_error labels (ids - 1)
  | PosInf | NegInf | NaN => None
  end.

Definition risk_category (risk_score : np_float) : option string :=
  pd_cut [0; 2 # 10; 5 # 10; 1]
         ["Low Risk"; "Medium Risk"; "High Risk"]%string
         risk_score.

Record behavior_row : Type := mk_behavior_row {
  customer : string;
  row_Invoice : Q;
  row_Payment : Q;
  row_payment_ratio : np_float;
  row_outstanding_balance : Q;
  row_risk_score : np_float;
  row_risk_category : option string
}.

(** [payment_behavior] with its derived columns; [None] when the risk block
    is skipped ([risk_df] empty) or the pivot lacks one of the two columns. *)
Definition payment_behavior (df : list txn) : option (list behavior_row) :=
  let risk_df := risk_df df in
  match risk_df with
  | [] => None
  | _ =>
      let payment_behavior := pivot_table risk_df in
      if has_column "Invoice" risk_df && has_column "Payment" risk_df then
        let invoice_max := series_max (map Invoice payment_behavior) in
        Some (map (fun row =>
                     let score :=
                       risk_score (Invoice row) (Payment row) invoice_max in
                     mk_behavior_row
                       (pivot_customer row)
                       (Invoice row)
                       (Payment row)
                       (payment_ratio (Invoice row) (Payment row))
                       (outstanding_balance (Invoice row) (Payment row))
                       score
                       (risk_category score))
                  payment_behavior)
      else None
  end.

(** ** Dashboard totals *)

(** [Series.sum()] of a numeric column without missing values. *)
Fixpoint column_sum (column : list Q) : Q :=
  match column with
  | [] => 0
  | x :: rest => x + column_sum rest
  end.

(** [total_outstanding = payment_behavior["outstanding_balance"].sum()]. *)
Definition total_outstanding (payment_behavior : list behavior_row) : Q :=
  column_sum (map row_outstanding_balance payment_behavior).

(** The total amount of one transaction type in a frame; used to state what
    the pivot preserves. *)
Definition type_total (type : string) (rows : list txn) : Q :=
  column_sum
    (map total_amount
         (filter (fun r => String.eqb (transaction_type r) type) rows)).

End Risk.

(** * The loan-id join ([scripts/combine_hubspot_mca.py]) and the audit's
      missing-loan-id test ([pages/audit.py]) *)

Module Combine.

(** A row of the [deals] table: its key and the nullable [loan_id] (the
    other columns ride along unchanged). *)
Record deal : Type := mk_deal {
  deal_id : Z;
  loan_id : option string
}.

(** A row of the [mca_deals] table, with its nullable [deal_number]. *)
Record mca_deal : Type := mk_mca_deal {
  mca_id : Z;
  deal_number : option string
}.

(** A row of the merged frame, keys already cast to strings. *)
Record combined_row : Type := mk_combined_row {
  id_hubspot : Z;
  combined_loan_id : string;
  id_mca : Z;
  combined_deal_number : string
}.

(** [Series.isna()] on one cell. *)
Definition isna {A : Type} (x : option A) : bool :=
  match x with Some _ => false | None => true end.

(** [astype(str)] on one cell of an object column: a null becomes the text
    ["None"]. *)
Definition astype_str (x : option string) : string :=
  match x with
  | Some s => s
  | None => "None"
  end.

(** [deals.dropna(subset=["loan_id"])]. *)
Definition dropna_loan_id (deals : list deal) : list deal :=
  filter (fun d => negb (isna (loan_id d))) deals.

(** [pd.merge(deals, mca, how="inner", left_on="loan_id",
    right_on="deal_number")]: every pair of rows with equal keys. *)
Definition merge_inner (deals : list (Z * string)) (mca : list (Z * string))
  : list combined_row :=
  flat_map
    (fun d =>
       map (fun m => mk_combined_row (fst d) (snd d) (fst m) (snd m))
           (filter (fun m => String.eqb (snd d) (snd m)) mca))
    deals.

(** The body of [combine_deals] on two frames that have their key columns,
    before the unused columns are dropped. *)
Definition join_deals (deals : list deal) (mca : list mca_deal)
  : list combined_row :=
  let deals := dropna_loan_id deals in
  let deals := map (fun d => (deal_id d, astype_str (loan_id d))) deals in
  let mca := map (fun m => (mca_id m, astype_str (deal_number m))) mca in
  merge_inner deals mca.

(** What a step that looks a column up by name can do: return, or raise
    [KeyError] for the column. *)
Inductive outcome (A : Type) : Type :=
| Ok (value : A)
| KeyError (column : string).

Arguments Ok {A} value.
Arguments KeyError {A} column.

(** [combine_deals].  Both frames come from [fetch_table], which builds them
    from the fetched rows: a table without rows gives a frame without
    columns.  Then [deals.dropna(subset=["loan_id"])] raises [KeyError], and
    so does [mca["deal_number"]] when it is the MCA table that is empty. *)
Definition combine_deals (deals : list deal) (mca : list mca_deal)
  : outcome (list combined_row) :=
  match deals with
  | [] => KeyError "loan_id"
  | _ :: _ =>
      match mca with
      | [] => KeyError "deal_number"
      | _ :: _ => Ok (join_deals deals mca)
      end
  end.

(** Characters removed by [str.strip()] (the ASCII ones). *)
Definition is_space (c : ascii) : bool :=
  let n := nat_of_ascii c in
  ((9 <=? n) && (n <=? 13) || (28 <=? n) && (n <=? 32))%nat.

Fixpoint lstrip (s : string) : string :=
  match s with
  | EmptyString => EmptyString
  | String c rest => if is_space c then lstrip rest else s
  end.

Definition reverse (s : string) : string :=
  string_of_list_ascii (rev (list_ascii_of_string s)).

Definition rstrip (s : string) : string := reverse (lstrip (reverse s)).

Definition strip (s : string) : string := rstrip (lstrip s).

(** The mask of [missing_loan_ids] in the audit page: null, empty, or empty
    once cast to text and stripped. *)
Definition missing_loan_id (loan_id : option string) : bool :=
  isna loan_id
  || match loan_id with Some s => String.eqb s "" | None => false end
  || String.eqb (strip (astype_str loan_id)) "".

End Combine.

(** * The cash-flow analysis ([pages/qbo_dashboard.py], "Cash Flow
      Analysis") *)

Module CashFlow.

(** A transaction after preprocessing: [total_amount] is [None] for [NaN],
    [txn_date] (nanoseconds) is [None] for [NaT]. *)
Record txn : Type := mk_txn {
  transaction_type : string;
  total_amount : option Q;
  txn_date : option Z
}.

(** The column [cash_impact]: the absolute amount for inflow types, its
    opposite for outflow types, zero otherwise; a missing amount stays
    missing in the first two cases. *)
Definition cash_impact (r : txn) : option Q :=
  Risk.np_where
    (isin (transaction_type r) ["Payment"; "Deposit"; "Receipt"]%string)
    (option_map py_abs (total_amount r))
    (Risk.np_where
       (isin (transaction_type r) ["Invoice"; "Bill"; "Expense"]%string)
       (option_map (fun a => - py_abs a) (total_amount r))
       (Some 0)).

(** One row of [daily_cash_flow]: a calendar day, the sum of its cash
    impacts and the count of its amounts. *)
Record daily_row : Type := mk_daily_row {
  date : Z;
  net_cash_flow : Q;
  transaction_count : nat
}.

(** The contribution of one cell to a group's ["sum"] (missing values are
    skipped) and to its ["count"]. *)
Definition sum_cell (x : option Q) : Q :=
  match x with Some v => v | None => 0 end.

Definition count_cell (x : option Q) : nat :=
  match x with Some _ => 1 | None => 0 end.

(** Adding one transaction to the groups, kept in increasing order of the
    day as [groupby] returns them. *)
Fixpoint add_to_day (day : Z) (r : txn) (days : list daily_row)
  : list daily_row :=
  match days with
  | [] =>
      [mk_daily_row day (sum_cell (cash_impact r))
                    (count_cell (total_amount r))]
  | d :: rest =>
      if (day <? date d)%Z then
        mk_daily_row day (sum_cell (cash_impact r))
                     (count_cell (total_amount r))
        :: d :: rest
      else if (day =? date d)%Z then
        mk_daily_row day (net_cash_flow d + sum_cell (cash_impact r))
                     (transaction_count d + count_cell (total_amount r))
        :: rest
      else d :: add_to_day day r rest
  end.

(** Grouping one more row: rows without a date belong to no group. *)
Definition step (days : list daily_row) (r : txn) : list daily_row :=
  match txn_date r with
  | Some t => add_to_day (Forecast.calendar_day t) r days
  | None => days
  end.

(** [groupby(txn_date.dt.date).agg({"cash_impact": "sum",
    "total_amount": "count"})]. *)
Definition daily_cash_flow (df : list txn) : list daily_row :=
  fold_left step df [].

(** [Series.cumsum()]. *)
Fixpoint cumsum_from (acc : Q) (column : list Q) : list Q :=
  match column with
  | [] => []
  | x :: rest => (acc + x) :: cumsum_from (acc + x) rest
  end.

Definition cumsum (column : list Q) : list Q :=
  match column with
  | [] => []
  | x :: rest => x :: cumsum_from x rest
  end.

Definition cumulative_cash_flow (daily : list daily_row) : list Q :=
  cumsum (map net_cash_flow daily).

(** How the page fares up to the "Current Cash Position" metric, as far as
    the transaction dates decide it. *)
Inductive section_outcome : Type :=
| NoTransactionData
| DateRangeError
| PositionIndexError
| CurrentPosition (position : Q).

(** The steps of the page that read [df["txn_date"]], in order; [df] is
    [None] when the frame has no [txn_date] column.

    - "Executive Summary": for a non-empty frame with the column,
      [df['txn_date'].min().strftime(...)]; the minimum of a column without
      a single date is [NaT], whose [strftime] raises [ValueError]
      ([DateRangeError]), and the script stops there.
    - "Cash Flow Analysis": the guard
      [df.empty or "txn_date" not in df.columns] takes the warning branch
      ([NoTransactionData]); otherwise the section ends with
      [daily_cash_flow["cumulative_cash_flow"].iloc[-1]], which raises
      [IndexError] on an empty table ([PositionIndexError]). *)
Definition cash_flow_analysis (df : option (list txn)) : section_outcome :=
  match df with
  | None | Some [] => NoTransactionData
  | Some rows =>
      match Forecast.series_min (map txn_date rows) with
      | None => DateRangeError
      | Some _ =>
          match cumulative_cash_flow (daily_cash_flow rows) with
          | [] => PositionIndexError
          | x :: rest => CurrentPosition (last rest x)
          end
      end
  end.

(** [(daily_cash_flow["net_cash_flow"] > 0).sum()]. *)
Definition positive_days (daily : list daily_row) : nat :=
  List.length (filter (fun d => Qltb 0 (net_cash_flow d)) daily).

(** The total cash impact of the dated transactions; used to state what the
    grouping preserves. *)
Fixpoint dated_cash_impact (df : list txn) : Q :=
  match df with
  | [] => 0
  | r :: rest =>
      match txn_date r with
      | Some _ => sum_cell (cash_impact r) + dated_cash_impact rest
      | None => dated_cash_impact rest
      end
  end.

End CashFlow.

(** * The audit page ([pages/audit.py]) *)

Module Audit.

(** A row of the deals table as the audit reads it. *)
Record deal : Type := mk_deal {
  loan_id : option string;
  is_closed_won : bool
}.

(** A string made of whitespace only (the empty string included). *)
Definition blank (s : string) : Prop :=
  Forall (fun c => Combine.is_space c = true) (list_ascii_of_string s).

(** [df[df["is_closed_won"] == True]]. *)
Definition won_deals (df : list deal) : list deal :=
  filter is_closed_won df.

(** Won deals whose loan id is null, empty or blank. *)
Definition missing_loan_ids (df : list deal) : list deal :=
  filter (fun d => Combine.missing_loan_id (loan_id d)) (won_deals df).

(** [(part / whole * 100) if whole > 0 else 0] on two row counts, as used
    for the missing rate and the recent close rate. *)
Definition rate_pct (part whole : nat) : Q :=
  if (0 <? whole)%nat
  then inject_Z (Z.of_nat part) / inject_Z (Z.of_nat whole) * 100
  else 0.

Definition missing_pct (df : list deal) : Q :=
  rate_pct (List.length (missing_loan_ids df)) (List.length (won_deals df)).

(** [Series.duplicated()] with [keep="first"]: an entry is marked when an
    equal entry comes before it. *)
Fixpoint duplicated_after (seen : list string) (column : list string)
  : list bool :=
  match column with
  | [] => []
  | x :: rest => isin x seen :: duplicated_after (x :: seen) rest
  end.

Definition duplicated (column : list string) : list bool :=
  duplicated_after [] column.

(** The loan ids kept by [df["loan_id"].notna() & (df["loan_id"] != "")]. *)
Fixpoint checked_loan_ids (df : list deal) : list string :=
  match df with
  | [] => []
  | d :: rest =>
      match loan_id d with
      | Some s => if String.eqb s "" then checked_loan_ids rest
                  else s :: checked_loan_ids rest
      | None => checked_loan_ids rest
      end
  end.

(** [duplicate_loan_ids]: the number of marked entries. *)
Definition duplicate_loan_ids (df : list deal) : nat :=
  List.length (filter (fun b => b) (duplicated (checked_loan_ids df))).

End Audit.

(** * The loan-performance tables of the EDA page ([pages/QBO_EDA.py]) *)

Module EDA.

(** [x >= y]; every comparison with [nan] is false. *)
Definition np_ge (x y : Risk.np_float) : bool :=
  match x, y with
  | Risk.NaN, _ | _, Risk.NaN => false
  | Risk.Fin a, Risk.Fin b => Qle_bool b a
  | Risk.PosInf, _ => true
  | _, Risk.NegInf => true
  | _, _ => false
  end.

(** "Enhanced Loan Performance Analysis": the payment ratio, guarded as on
    the dashboard, and the label read off it. *)
Definition payment_ratio (total_invoiced total_payments : Q)
  : Risk.np_float :=
  Risk.np_where (Qltb 0 total_invoiced)
                (Risk.np_div (Risk.Fin total_payments)
                             (Risk.Fin total_invoiced))
                (Risk.Fin 0).

Definition risk_score (total_invoiced total_payments : Q) : string :=
  let payment_ratio := payment_ratio total_invoiced total_payments in
  Risk.np_where (Risk.np_lt payment_ratio (Risk.Fin (5 # 10)))
                "High Risk"%string
                (Risk.np_where (Risk.np_lt payment_ratio (Risk.Fin (8 # 10)))
                               "Medium Risk"%string
                               "Low Risk"%string).

(** "Original Analysis": the traffic light of the balance ratio. *)
Inductive indicator : Type :=
| Red
| Yellow
| Green.

Definition balance_ratio (invoice payment : Q) : Risk.np_float :=
  let balance := invoice - payment in
  Risk.np_div (Risk.Fin balance) (Risk.Fin invoice).

Definition balance_indicator (invoice payment : Q) : indicator :=
  let x := balance_ratio invoice payment in
  if np_ge x (Risk.Fin (25 # 100)) then Red
  else if np_ge x (Risk.Fin (10 # 100)) then Yellow
       else Green.

End EDA.

(** * Properties *)

(** ** Helpers *)

Lemma Qltb_true (x y : Q) : Qltb x y = true <-> x < y.
Proof.
  unfold Qltb. rewrite negb_true_iff.
  split.
  - intros H. apply Qnot_le_lt. intros Hle.
    apply Qle_bool_iff in Hle. congruence.
  - intros H. destruct (Qle_bool y x) eqn:E; [|reflexivity].
    apply Qle_bool_iff in E. exfalso. apply (Qlt_not_le _ _ H E).
Qed.

Lemma Qltb_false (x y : Q) : Qltb x y = false <-> y <= x.
Proof.
  unfold Qltb. rewrite negb_false_iff. apply Qle_bool_iff.
Qed.

Lemma py_max_l (a b : Q) : a <= py_max a b.
Proof.
  unfold py_max. destruct (Qltb a b) eqn:E.
  - apply Qltb_true in E. lra.
  - lra.
Qed.

Lemma py_max_r (a b : Q) : b <= py_max a b.
Proof.
  unfold py_max. destruct (Qltb a b) eqn:E.
  - lra.
  - apply Qltb_false in E. lra.
Qed.

Lemma isin_In (s : string) (names : list string) :
  isin s names = true <-> In s names.
Proof.
  unfold isin. rewrite existsb_exists. split.
  - intros [x [Hin Heq]]. apply String.eqb_eq in Heq. subst. exact Hin.
  - intros Hin. exists s. split; [exact Hin | apply String.eqb_refl].
Qed.

Lemma last_default_irrelevant {A : Type} (l : list A) (d d' : A) :
  l <> [] -> last l d = last l d'.
Proof.
  induction l as [|x l IH]; intros Hne.
  - contradiction.
  - destruct l as [|y l]; [reflexivity|].
    change (last (y :: l) d = last (y :: l) d'). apply IH. discriminate.
Qed.

(** ** The projection loop *)

Module ForecastFacts.
Import Forecast.

Section Loop.

Variables deployment_rate inflow_rate opex_rate : Q.
Variables starting_cash min_cash_threshold : Q.

Let step := forecast_step deployment_rate inflow_rate opex_rate
                          min_cash_threshold.
Let loop := forecast_loop deployment_rate inflow_rate opex_rate
                          min_cash_threshold.

(** Every row written by the loop body satisfies the net-flow identity and
    continues the balance it started from, syntactically. *)
Lemma forecast_step_identity (current_cash : Q) :
  let row := step current_cash in
  net_flow row = inflows row - deployment row - opex row
  /\ cash_position row = current_cash + net_flow row.
Proof. split; reflexivity. Qed.

Lemma forecast_loop_length (n : nat) (current_cash : Q) :
  List.length (loop n current_cash) = n.
Proof.
  revert current_cash. induction n as [|n IH]; intros c; simpl.
  - reflexivity.
  - f_equal. apply IH.
Qed.

(** Rows of the loop, seen through their index. *)
Lemma forecast_loop_rows (n : nat) :
  forall (current_cash : Q) (i : nat) (row : period),
    nth_error (loop n current_cash) i = Some row ->
    net_flow row = inflows row - deployment row - opex row
    /\ (forall prev,
           nth_error
             (mk_period current_cash 0 0 0 0 :: loop n current_cash) i
           = Some prev ->
           cash_position row = cash_position prev + net_flow row).
Proof.
  induction n as [|n IH]; intros c i row Hrow.
  - destruct i; discriminate.
  - change (loop (S n) c)
      with (step c :: loop n (cash_position (step c))) in *.
    destruct i as [|i]; cbn [nth_error] in Hrow |- *.
    + injection Hrow as <-. split; [reflexivity|].
      intros prev Hprev. injection Hprev as <-. reflexivity.
    + destruct (IH _ _ _ Hrow) as [Hnet Hcash]. split; [exact Hnet|].
      intros prev Hprev.
      destruct i as [|i]; cbn [nth_error] in Hprev, Hcash.
      * injection Hprev as <-. exact (Hcash _ eq_refl).
      * exact (Hcash _ Hprev).
Qed.

(** One period keeps the balance at or above the reserve as soon as the
    reserve can be met with no deployment at all. *)
Lemma forecast_step_floor (current_cash : Q) :
  0 <= inflow_rate ->
  min_cash_threshold <= current_cash + inflow_rate - opex_rate ->
  min_cash_threshold <= cash_position (step current_cash).
Proof.
  intros Hin Hfeasible. unfold step, forecast_step. simpl.
  destruct (Qltb (current_cash - deployment_rate - opex_rate)
                 min_cash_threshold) eqn:Hguard.
  - unfold py_max.
    destruct (Qltb 0 (current_cash - min_cash_threshold - opex_rate))
      eqn:Hpos.
    + lra.
    + lra.
  - apply Qltb_false in Hguard. lra.
Qed.

(** The throttled deployment is never negative and never above the
    scenario rate. *)
Lemma forecast_step_deployment (current_cash : Q) :
  0 <= deployment_rate ->
  0 <= deployment (step current_cash)
  /\ deployment (step current_cash) <= deployment_rate.
Proof.
  intros Hdep. unfold step, forecast_step. simpl.
  destruct (Qltb (current_cash - deployment_rate - opex_rate)
                 min_cash_threshold) eqn:Hguard.
  - apply Qltb_true in Hguard. split; [apply py_max_l|].
    unfold py_max.
    destruct (Qltb 0 (current_cash - min_cash_threshold - opex_rate));
      lra.
  - split; lra.
Qed.

Lemma forecast_loop_floor (n : nat) :
  0 <= inflow_rate -> opex_rate <= inflow_rate ->
  forall current_cash,
    min_cash_threshold <= current_cash ->
    forall row, In row (loop n current_cash) ->
                min_cash_threshold <= cash_position row.
Proof.
  intros Hin Hcover.
  induction n as [|n IH]; intros c Hc row Hrow; simpl in Hrow.
  - contradiction.
  - assert (Hnext : min_cash_threshold <= cash_position (step c))
      by (apply forecast_step_floor; lra).
    destruct Hrow as [<- | Hrow]; [exact Hnext|].
    exact (IH _ Hnext _ Hrow).
Qed.

(** Without throttling the balance moves by the steady-state net flow. *)
Lemma forecast_loop_unthrottled (n : nat) :
  forall current_cash,
    never_throttled deployment_rate inflow_rate opex_rate
                    min_cash_threshold n current_cash = true ->
    final_cash_position current_cash (loop n current_cash)
    == current_cash
       + net_flow_per_period deployment_rate inflow_rate opex_rate
         * inject_Z (Z.of_nat n).
Proof.
  unfold final_cash_position.
  induction n as [|n IH]; intros c Hnever.
  - simpl. unfold net_flow_per_period. ring.
  - cbn [never_throttled] in Hnever.
    apply andb_true_iff in Hnever as [Hguard Hnever].
    apply negb_true_iff in Hguard.
    specialize (IH _ Hnever).
    assert (Hstep : cash_position (step c)
                    = c + (inflow_rate - deployment_rate - opex_rate)).
    { unfold step, forecast_step. unfold throttled in Hguard.
      rewrite Hguard. reflexivity. }
    change (loop (S n) c) with (step c :: loop n (cash_position (step c))).
    assert (Hlast :
      cash_position (last (step c :: loop n (cash_position (step c)))
                          (mk_period c 0 0 0 0))
      = cash_position (last (loop n (cash_position (step c)))
                            (mk_period (cash_position (step c)) 0 0 0 0))).
    { destruct (loop n (cash_position (step c))) as [|r rs] eqn:E.
      - reflexivity.
      - f_equal. change (last (step c :: r :: rs) (mk_period c 0 0 0 0))
          with (last (r :: rs) (mk_period c 0 0 0 0)).
        apply last_default_irrelevant. discriminate. }
    rewrite Hlast. clear Hlast.
    fold step in IH. rewrite IH, Hstep.
    rewrite Nat2Z.inj_succ, <- Z.add_1_r, inject_Z_plus.
    unfold net_flow_per_period. change (inject_Z 1) with 1. ring.
Qed.

End Loop.

End ForecastFacts.

(** ** Claims on the projection loop and the headline metrics *)

Import Forecast.

(** C2.  In the table written by the projection loop, every row records
    [Net Flow = Inflows - Deployment - OpEx], and every row after the
    starting point records [Cash Position] as the previous row's
    [Cash Position] plus its own [Net Flow]; both hold as syntactic
    equalities, for all scenario parameters and horizons. *)
Theorem net_flow_and_cash_position_identity
    (deployment_rate inflow_rate opex_rate starting_cash min_cash_threshold : Q)
    (forecast_horizon : nat) :
  let rows := forecast_data deployment_rate inflow_rate opex_rate
                            starting_cash min_cash_threshold
                            forecast_horizon in
  (forall i row,
      nth_error rows i = Some row ->
      net_flow row = inflows row - deployment row - opex row)
  /\ (forall i prev row,
         nth_error rows i = Some prev ->
         nth_error rows (S i) = Some row ->
         cash_position row = cash_position prev + net_flow row).
Proof.
  intros rows. subst rows. unfold forecast_data. split.
  - intros [|i] row Hrow; cbn [nth_error] in Hrow.
    + injection Hrow as <-. reflexivity.
    + exact (proj1 (ForecastFacts.forecast_loop_rows
                      _ _ _ _ _ _ _ _ Hrow)).
  - intros i prev row Hprev Hrow. cbn [nth_error] in Hrow.
    exact (proj2 (ForecastFacts.forecast_loop_rows
                    _ _ _ _ _ _ _ _ Hrow) prev Hprev).
Qed.

Lemma net_flow_and_cash_position_identity_witness :
  let rows := forecast_data 10000 12000 2500 500000 100000 26 in
  exists prev row,
    nth_error rows 3 = Some prev /\ nth_error rows 4 = Some row
    /\ net_flow row = inflows row - deployment row - opex row
    /\ cash_position row = cash_position prev + net_flow row.
Proof.
  intros rows.
  destruct (nth_error rows 3) as [prev|] eqn:Hprev; [|discriminate].
  destruct (nth_error rows 4) as [row|] eqn:Hrow; [|discriminate].
  exists prev, row.
  pose proof (net_flow_and_cash_position_identity
                10000 12000 2500 500000 100000 26) as [Hnet Hcash].
  repeat split.
  - exact (Hnet 4%nat row Hrow).
  - exact (Hcash 3%nat prev row Hprev Hrow).
Defined.

(** A run-wide sufficient condition for the floor.  If the starting cash is
    at or above the minimum reserve, inflows are non-negative and operating
    expenses do not exceed inflows, then every recorded cash position is at
    or above the minimum reserve, whatever the deployment rate and the
    horizon. *)
Theorem cash_floor_when_inflows_cover_opex
    (deployment_rate inflow_rate opex_rate starting_cash min_cash_threshold : Q)
    (forecast_horizon : nat) :
  min_cash_threshold <= starting_cash ->
  0 <= inflow_rate ->
  opex_rate <= inflow_rate ->
  forall row,
    In row (forecast_data deployment_rate inflow_rate opex_rate
                          starting_cash min_cash_threshold forecast_horizon) ->
    min_cash_threshold <= cash_position row.
Proof.
  intros Hstart Hin Hcover row [<- | Hrow].
  - exact Hstart.
  - exact (ForecastFacts.forecast_loop_floor
             _ _ _ _ _ Hin Hcover _ Hstart _ Hrow).
Qed.

Lemma cash_floor_when_inflows_cover_opex_witness :
  100000 <= 120000 /\ 0 <= 12000 /\ 2500 <= 12000
  /\ Forall (fun row => 100000 <= cash_position row)
            (forecast_data 50000 12000 2500 120000 100000 4).
Proof.
  assert (H1 : 100000 <= 120000) by (vm_compute; discriminate).
  assert (H2 : 0 <= 12000) by (vm_compute; discriminate).
  assert (H3 : 2500 <= 12000) by (vm_compute; discriminate).
  repeat split; try assumption.
  apply Forall_forall.
  exact (cash_floor_when_inflows_cover_opex
           50000 12000 2500 120000 100000 4 H1 H2 H3).
Defined.

(** C1 fails as stated: with starting cash equal to the reserve, no inflows
    and weekly expenses of 2500, deployment is throttled to zero and the
    first period already ends 2500 below the reserve. *)
Lemma cash_floor_broken_by_opex :
  let rows := forecast_data 10000 0 2500 100000 100000 4 in
  100000 <= 100000 /\ 0 <= 10000 /\ 0 <= 0 /\ 0 <= 2500
  /\ exists row,
       nth_error rows 1 = Some row
       /\ deployment row == 0
       /\ cash_position row == 97500
       /\ cash_position row < 100000 - 1.
Proof.
  intros rows.
  repeat (split; [vm_compute; discriminate|]).
  eexists. split; [reflexivity|].
  repeat split; vm_compute; reflexivity.
Qed.

(** C8.  For deployment 10000/week, inflows 12000/week, expenses 2500/week,
    starting cash 500000 and reserve 100000: the net flow per period is
    -500, the runway metric is (500000 - 100000) / 500 = 800 weeks, and the
    ending cash for a 26-week horizon, also as displayed, is
    500000 + 26 * (-500) = 487000. *)
Theorem scenario_net_flow_runway_ending_cash :
  net_flow_per_period 10000 12000 2500 == -500
  /\ (exists runway,
         cash_runway 10000 12000 2500 500000 100000 = CashRunway runway
         /\ runway == (500000 - 100000) / 500
         /\ runway == 800)
  /\ ending_cash 10000 12000 2500 500000 26 == 500000 + 26 * -500
  /\ displayed_ending_cash 10000 12000 2500 500000 26 == 487000.
Proof.
  split; [reflexivity|].
  split.
  - eexists. split; [reflexivity|]. split; reflexivity.
  - split; reflexivity.
Qed.

(** C10.  The headline ending cash is
    [starting_cash + net_flow_per_period * forecast_horizon], with no
    throttle.  Whenever the throttle guard is false in every period, it
    equals the last cash position of the projection table; and there is a
    run in which the throttle binds and the two values differ. *)
Theorem ending_cash_agrees_unless_throttled :
  (forall deployment_rate inflow_rate opex_rate starting_cash
          min_cash_threshold forecast_horizon,
      never_throttled deployment_rate inflow_rate opex_rate
                      min_cash_threshold forecast_horizon starting_cash
      = true ->
      final_cash_position
        starting_cash
        (forecast_data deployment_rate inflow_rate opex_rate starting_cash
                       min_cash_threshold forecast_horizon)
      == ending_cash deployment_rate inflow_rate opex_rate starting_cash
                     forecast_horizon)
  /\ (exists deployment_rate inflow_rate opex_rate starting_cash
             min_cash_threshold forecast_horizon,
         never_throttled deployment_rate inflow_rate opex_rate
                         min_cash_threshold forecast_horizon starting_cash
         = false
         /\ ~ final_cash_position
                starting_cash
                (forecast_data deployment_rate inflow_rate opex_rate
                               starting_cash min_cash_threshold
                               forecast_horizon)
              == ending_cash deployment_rate inflow_rate opex_rate
                             starting_cash forecast_horizon).
Proof.
  split.
  - intros dr ir opx sc mct h Hnever.
    unfold ending_cash.
    rewrite <- (ForecastFacts.forecast_loop_unthrottled _ _ _ _ _ _ Hnever).
    unfold final_cash_position, forecast_data, starting_row.
    destruct h as [|h]; [reflexivity|].
    match goal with
    | |- cash_position (last (?r :: ?l) ?d) == _ =>
        change (last (r :: l) d) with (last l d)
    end.
    reflexivity.
  - exists 100000, 0, 2500, 500000, 100000, 4%nat.
    split; [reflexivity|].
    intros H. vm_compute in H. discriminate.
Qed.

Lemma ending_cash_agrees_unless_throttled_witness :
  never_throttled 10000 12000 2500 100000 26 500000 = true
  /\ final_cash_position
       500000 (forecast_data 10000 12000 2500 500000 100000 26)
     == ending_cash 10000 12000 2500 500000 26.
Proof.
  split.
  - vm_compute. reflexivity.
  - apply (proj1 ending_cash_agrees_unless_throttled).
    vm_compute. reflexivity.
Defined.

(** ** Baseline estimation *)

Module BaselineFacts.

Lemma fold_min_le (l : list Z) (t : Z) : (fold_left Z.min l t <= t)%Z.
Proof.
  revert t. induction l as [|x l IH]; intros t; simpl.
  - lia.
  - specialize (IH (Z.min t x)). lia.
Qed.

Lemma fold_max_ge (l : list Z) (t : Z) : (t <= fold_left Z.max l t)%Z.
Proof.
  revert t. induction l as [|x l IH]; intros t; simpl.
  - lia.
  - specialize (IH (Z.max t x)). lia.
Qed.

Lemma fold_min_bounds (lo hi : Z) (l : list Z) (t : Z) :
  (forall x, In x (t :: l) -> lo <= x < hi)%Z ->
  (lo <= fold_left Z.min l t < hi)%Z.
Proof.
  revert t. induction l as [|x l IH]; intros t Hall; simpl.
  - apply Hall. now left.
  - apply IH. intros y [<- | Hy].
    + pose proof (Hall t (or_introl eq_refl)).
      pose proof (Hall x (or_intror (or_introl eq_refl))). lia.
    + apply Hall. right. now right.
Qed.

Lemma fold_max_bounds (lo hi : Z) (l : list Z) (t : Z) :
  (forall x, In x (t :: l) -> lo <= x < hi)%Z ->
  (lo <= fold_left Z.max l t < hi)%Z.
Proof.
  revert t. induction l as [|x l IH]; intros t Hall; simpl.
  - apply Hall. now left.
  - apply IH. intros y [<- | Hy].
    + pose proof (Hall t (or_introl eq_refl)).
      pose proof (Hall x (or_intror (or_introl eq_refl))). lia.
    + apply Hall. right. now right.
Qed.

Lemma calendar_day_bounds (t day : Z) :
  Forecast.calendar_day t = day ->
  (Forecast.NS_PER_DAY * day <= t
   < Forecast.NS_PER_DAY * day + Forecast.NS_PER_DAY)%Z.
Proof.
  unfold Forecast.calendar_day. intros <-.
  assert (Hpos : (0 < Forecast.NS_PER_DAY)%Z) by reflexivity.
  pose proof (Z.div_mod t Forecast.NS_PER_DAY ltac:(lia)) as Hdm.
  pose proof (Z.mod_pos_bound t Forecast.NS_PER_DAY Hpos) as Hm.
  lia.
Qed.

Lemma In_present {A : Type} (column : list (option A)) (x : A) :
  In x (Forecast.present column) <-> In (Some x) column.
Proof.
  induction column as [|[y|] column IH]; simpl.
  - tauto.
  - rewrite IH. split.
    + intros [-> | H]; auto.
    + intros [H | H]; [injection H as ->; auto | auto].
  - rewrite IH. split; [auto|]. intros [H | H]; [discriminate | exact H].
Qed.

(** Timestamps of one calendar day span exactly one (inclusive) day. *)
Lemma span_days_same_day (column : list (option Z)) (day : Z) :
  Forecast.present column <> [] ->
  (forall t, In (Some t) column -> Forecast.calendar_day t = day) ->
  Forecast.span_days column = Some 1%Z.
Proof.
  intros Hne Hday.
  unfold Forecast.span_days, Forecast.series_min, Forecast.series_max.
  destruct (Forecast.present column) as [|t rest] eqn:E; [contradiction|].
  assert (Hall : forall x, In x (t :: rest) ->
                           (Forecast.NS_PER_DAY * day <= x
                            < Forecast.NS_PER_DAY * day
                              + Forecast.NS_PER_DAY)%Z).
  { intros x Hx. apply calendar_day_bounds, Hday.
    apply In_present. rewrite E. exact Hx. }
  pose proof (fold_min_bounds _ _ _ _ Hall) as Hmin.
  pose proof (fold_max_bounds _ _ _ _ Hall) as Hmax.
  pose proof (fold_min_le rest t) as Hle1.
  pose proof (fold_max_ge rest t) as Hle2.
  f_equal. unfold Forecast.timedelta_days.
  rewrite Z.div_small; [reflexivity|]. lia.
Qed.

(** The inclusive day count is at least one: the divisors of the rates are
    never zero. *)
Lemma span_days_positive (column : list (option Z)) (days : Z) :
  Forecast.span_days column = Some days -> (1 <= days)%Z.
Proof.
  unfold Forecast.span_days, Forecast.series_min, Forecast.series_max.
  destruct (Forecast.present column) as [|t rest]; [discriminate|].
  intros H. injection H as <-.
  pose proof (fold_min_le rest t) as Hle1.
  pose proof (fold_max_ge rest t) as Hle2.
  unfold Forecast.timedelta_days.
  assert (0 <= (fold_left Z.max rest t - fold_left Z.min rest t)
               / Forecast.NS_PER_DAY)%Z.
  { apply Z.div_pos; [lia | reflexivity]. }
  lia.
Qed.

Lemma present_dates_customer_payments (qbo_df : list Forecast.qbo_row) :
  Forecast.customer_payments qbo_df <> [] ->
  Forecast.present
    (map Forecast.txn_date (Forecast.customer_payments qbo_df)) <> [].
Proof.
  unfold Forecast.customer_payments.
  destruct (filter Forecast.is_customer_payment qbo_df) as [|r rs] eqn:E;
    [contradiction|].
  intros _.
  assert (Hr : In r (filter Forecast.is_customer_payment qbo_df))
    by (rewrite E; now left).
  apply filter_In in Hr as [_ Hr].
  unfold Forecast.is_customer_payment in Hr.
  apply andb_true_iff in Hr as [_ Hr].
  simpl. destruct (Forecast.txn_date r); [discriminate | discriminate].
Qed.

End BaselineFacts.

(** ** Claims on the baseline rates *)

(** C5 (as amended).  When all selected payments (respectively all dated
    deals) fall on one calendar day, the elapsed span counts as one inclusive
    day, so the divisors are 1/7 and 1/30.44, never zero, and the derived
    rates are the total amount scaled to the period: 7 times the total per
    week and 30.44 times the total per month. *)
Theorem same_day_rates_scale_total :
  (forall (qbo_df : list qbo_row) (day : Z),
      customer_payments qbo_df <> [] ->
      (forall r t, In r (customer_payments qbo_df) ->
                   txn_date r = Some t -> calendar_day t = day) ->
      let rates := inflow_rates (Some qbo_df) in
      span_days (map txn_date (customer_payments qbo_df)) = Some 1%Z
      /\ ~ inject_Z 1 / 7 == 0
      /\ ~ inject_Z 1 / DAYS_PER_MONTH == 0
      /\ has_qbo_data rates = true
      /\ weekly_inflow_rate rates == 7 * total_inflows qbo_df
      /\ monthly_inflow_rate rates == DAYS_PER_MONTH * total_inflows qbo_df)
  /\ (forall (closed_won_df : list deal_row) (day : Z),
         let dated := filter (fun d => notna (date_created d)) closed_won_df in
         dated <> [] ->
         (forall d t, In d dated ->
                      date_created d = Some t -> calendar_day t = day) ->
         exists rates,
           deployment_rates closed_won_df = Some rates
           /\ span_days (map date_created dated) = Some 1%Z
           /\ total_deployed rates = series_sum (map amount dated)
           /\ weekly_deployment_rate rates == 7 * total_deployed rates
           /\ monthly_deployment_rate rates
              == DAYS_PER_MONTH * total_deployed rates).
Proof.
  split.
  - intros qbo_df day Hne Hday rates.
    assert (Hspan : span_days (map txn_date (customer_payments qbo_df))
                    = Some 1%Z).
    { apply (BaselineFacts.span_days_same_day _ day).
      - apply BaselineFacts.present_dates_customer_payments, Hne.
      - intros t Ht. apply in_map_iff in Ht as [r [Hr Hin]].
        exact (Hday r t Hin Hr). }
    split; [exact Hspan|].
    split; [intros H; vm_compute in H; discriminate|].
    split; [intros H; vm_compute in H; discriminate|].
    subst rates. unfold inflow_rates.
    destruct qbo_df as [|r0 rest]; [contradiction Hne; reflexivity|].
    destruct (customer_payments (r0 :: rest)) as [|p ps] eqn:E;
      [contradiction Hne; reflexivity|].
    rewrite Hspan. cbn [Z.ltb Z.compare].
    cbn [has_qbo_data weekly_inflow_rate monthly_inflow_rate].
    split; [reflexivity|].
    unfold DAYS_PER_MONTH. split; field.
  - intros closed_won_df day dated Hne Hday.
    assert (Hspan : span_days (map date_created dated) = Some 1%Z).
    { apply (BaselineFacts.span_days_same_day _ day).
      - destruct dated as [|d ds] eqn:E; [contradiction Hne; reflexivity|].
        assert (Hd : In d dated) by (subst dated; rewrite E; now left).
        apply filter_In in Hd as [_ Hd].
        simpl. destruct (date_created d); discriminate.
      - intros t Ht. apply in_map_iff in Ht as [d [Hd Hin]].
        exact (Hday d t Hin Hd). }
    unfold deployment_rates. fold dated.
    destruct dated as [|d ds] eqn:E; [contradiction Hne; reflexivity|].
    rewrite Hspan. cbn [Z.ltb Z.compare].
    eexists. split; [reflexivity|].
    split; [reflexivity|].
    cbn [total_deployed weekly_deployment_rate monthly_deployment_rate].
    split; [reflexivity|].
    unfold DAYS_PER_MONTH. split; field.
Qed.

Lemma same_day_rates_scale_total_witness :
  let qbo_df :=
    [mk_qbo_row "Payment" "Acme" (Some 3600000000000%Z) (Some (-100));
     mk_qbo_row "Receipt" "Bolt" (Some 7200000000000%Z) (Some 50)] in
  weekly_inflow_rate (inflow_rates (Some qbo_df)) == 7 * total_inflows qbo_df
  /\ total_inflows qbo_df == 150.
Proof.
  intros qbo_df. split.
  - apply (proj1 same_day_rates_scale_total qbo_df 0%Z).
    + discriminate.
    + intros r t [<- | [<- | []]] Ht; injection Ht as <-; reflexivity.
  - vm_compute. reflexivity.
Defined.

(** C5 fails as stated: a single payment of 100 gives a weekly rate of 700
    and a monthly rate of 3044, not the total amount 100. *)
Lemma same_day_rate_is_not_total :
  let qbo_df := [mk_qbo_row "Payment" "Acme" (Some 0%Z) (Some 100)] in
  let rates := inflow_rates (Some qbo_df) in
  total_inflows qbo_df == 100
  /\ weekly_inflow_rate rates == 700
  /\ monthly_inflow_rate rates == 3044
  /\ ~ weekly_inflow_rate rates == total_inflows qbo_df
  /\ ~ monthly_inflow_rate rates == total_inflows qbo_df.
Proof.
  intros qbo_df rates.
  repeat split; try (vm_compute; reflexivity);
    intros H; vm_compute in H; discriminate.
Qed.

(** C6 (as amended).  The historical inflow total is summed over exactly the
    transactions whose type is "Payment" or "Receipt", whose customer is not
    a house account ("CSL", "VEEM") and whose date is present: a row is
    selected if and only if it meets these three conditions, a selected row
    adds the absolute value of its amount (nothing when the amount is
    missing) and any other row, a "Deposit" included, leaves the total
    unchanged. *)
Theorem inflow_total_selection (qbo_df : list qbo_row) (r : qbo_row) :
  (In r (customer_payments qbo_df) <->
   In r qbo_df
   /\ (transaction_type r = "Payment"%string
       \/ transaction_type r = "Receipt"%string)
   /\ customer_name r <> "CSL"%string
   /\ customer_name r <> "VEEM"%string
   /\ txn_date r <> None)
  /\ total_inflows (r :: qbo_df)
     = (if is_customer_payment r
        then match total_amount r with
             | Some a => py_abs a + total_inflows qbo_df
             | None => total_inflows qbo_df
             end
        else total_inflows qbo_df)
  /\ (transaction_type r = "Deposit"%string ->
      total_inflows (r :: qbo_df) = total_inflows qbo_df).
Proof.
  assert (Hsel : is_customer_payment r = true <->
                 (transaction_type r = "Payment"%string
                  \/ transaction_type r = "Receipt"%string)
                 /\ customer_name r <> "CSL"%string
                 /\ customer_name r <> "VEEM"%string
                 /\ txn_date r <> None).
  { unfold is_customer_payment.
    rewrite !andb_true_iff, negb_true_iff, isin_In.
    split.
    - intros [[Hty Hname] Hdate]. split.
      + destruct Hty as [H | [H | []]]; auto.
      + assert (Hnot : ~ In (customer_name r) ["CSL"; "VEEM"]%string).
        { intros Hin. apply isin_In in Hin. congruence. }
        repeat split.
        * intros H. apply Hnot. rewrite H. simpl. auto.
        * intros H. apply Hnot. rewrite H. simpl. auto.
        * destruct (txn_date r); [discriminate | discriminate].
    - intros [Hty [Hcsl [Hveem Hdate]]]. repeat split.
      + destruct Hty as [<- | <-]; simpl; auto.
      + destruct (isin (customer_name r) ["CSL"; "VEEM"]%string) eqn:E;
          [|reflexivity].
        apply isin_In in E. destruct E as [E | [E | []]]; congruence.
      + destruct (txn_date r); [reflexivity | congruence]. }
  assert (Hstep : total_inflows (r :: qbo_df)
                  = (if is_customer_payment r
                     then match total_amount r with
                          | Some a => py_abs a + total_inflows qbo_df
                          | None => total_inflows qbo_df
                          end
                     else total_inflows qbo_df)).
  { unfold total_inflows, customer_payments. cbn [filter].
    destruct (is_customer_payment r); [|reflexivity].
    cbn [map series_abs]. destruct (total_amount r); reflexivity. }
  split; [|split].
  - unfold customer_payments. rewrite filter_In, Hsel. tauto.
  - exact Hstep.
  - intros Hdep. rewrite Hstep.
    pose proof (proj1 Hsel) as Hsel1.
    destruct (is_customer_payment r); [|reflexivity].
    destruct (Hsel1 eq_refl) as [[E | E] _]; congruence.
Qed.

(** C6 fails as stated: a dated "Deposit" of 100 from an ordinary customer
    is in the three-type inflow set of the claim, yet it is not selected
    and the inflow total and rates stay at zero. *)
Lemma deposit_is_not_an_inflow :
  let r := mk_qbo_row "Deposit" "Acme" (Some 0%Z) (Some 100) in
  isin (transaction_type r) ["Payment"; "Deposit"; "Receipt"]%string = true
  /\ isin (customer_name r) ["CSL"; "VEEM"]%string = false
  /\ customer_payments [r] = []
  /\ total_inflows [r] = 0
  /\ inflow_rates (Some [r]) = mk_inflow_baseline false 0 0.
Proof.
  intros r. repeat split.
Qed.

(** ** The risk scorer *)

Module RiskFacts.
Import Risk.

Lemma Qeq_bool_false (x y : Q) : Qeq_bool x y = false <-> ~ x == y.
Proof.
  split.
  - intros H Heq. apply Qeq_bool_iff in Heq. congruence.
  - intros H. destruct (Qeq_bool x y) eqn:E; [|reflexivity].
    apply Qeq_bool_iff in E. contradiction.
Qed.

Lemma py_abs_nonneg (x : Q) : 0 <= py_abs x.
Proof. apply Qabs_nonneg. Qed.

(** Amounts of [risk_df] are absolute values. *)
Lemma risk_df_nonneg (df : list txn) (r : txn) :
  In r (risk_df df) -> 0 <= total_amount r.
Proof.
  unfold risk_df. intros H. apply in_map_iff in H as [r0 [<- _]].
  apply py_abs_nonneg.
Qed.

Lemma pivot_cell_nonneg (customer type : string) (rows : list txn) :
  (forall r, In r rows -> 0 <= total_amount r) ->
  0 <= pivot_cell customer type rows.
Proof.
  induction rows as [|r rows IH]; intros Hall; simpl.
  - lra.
  - assert (Hr : 0 <= total_amount r) by (apply Hall; now left).
    assert (Hrest : 0 <= pivot_cell customer type rows)
      by (apply IH; intros r' Hr'; apply Hall; now right).
    destruct (String.eqb (customer_name r) customer
              && String.eqb (transaction_type r) type); lra.
Qed.

Lemma fold_py_max_init (l : list Q) (a : Q) : a <= fold_left py_max l a.
Proof.
  revert a. induction l as [|y l IH]; intros a; simpl.
  - lra.
  - pose proof (IH (py_max a y)). pose proof (py_max_l a y). lra.
Qed.

Lemma fold_py_max_ge (l : list Q) (a z : Q) :
  In z (a :: l) -> z <= fold_left py_max l a.
Proof.
  revert a. induction l as [|y l IH]; intros a Hz; simpl.
  - destruct Hz as [<- | []]. lra.
  - destruct Hz as [<- | [<- | Hz]].
    + pose proof (fold_py_max_init l (py_max a y)).
      pose proof (py_max_l a y). lra.
    + pose proof (fold_py_max_init l (py_max a y)).
      pose proof (py_max_r a y). lra.
    + apply IH. now right.
Qed.

(** Every entry of a column is bounded by its [max()]. *)
Lemma series_max_ge (column : list Q) (z : Q) :
  In z column -> exists m, series_max column = Fin m /\ z <= m.
Proof.
  destruct column as [|x rest]; [contradiction|].
  intros Hz. eexists. split; [reflexivity|].
  apply fold_py_max_ge, Hz.
Qed.

(** The payment ratio is always a finite number. *)
Lemma payment_ratio_finite (invoice payment : Q) :
  payment_ratio invoice payment
  = Fin (if Qltb 0 invoice then payment / invoice else 0).
Proof.
  unfold payment_ratio, np_where, np_div.
  destruct (Qltb 0 invoice) eqn:E; [|reflexivity].
  apply Qltb_true in E.
  assert (Hnz : Qeq_bool invoice 0 = false)
    by (apply Qeq_bool_false; lra).
  rewrite Hnz. reflexivity.
Qed.

Lemma ratio_nonneg (a b : Q) : 0 <= a -> 0 < b -> 0 <= a / b.
Proof.
  intros Ha Hb. apply Qle_shift_div_l; [exact Hb | lra].
Qed.

Lemma ratio_le_one (a b : Q) : a <= b -> 0 < b -> a / b <= 1.
Proof.
  intros Ha Hb. apply Qle_shift_div_r; [exact Hb | lra].
Qed.

(** The score of a customer never compares above 1: with absolute amounts
    the first term is at most 0.4, the relative balance at most 1 and the
    penalty at most 0.3. *)
Lemma risk_score_not_above_one (invoice payment invoice_max : Q) :
  0 <= invoice -> 0 <= payment -> invoice <= invoice_max ->
  np_gt (risk_score invoice payment (Fin invoice_max)) (Fin 1) = false.
Proof.
  intros Hinv Hpay Hmax.
  unfold np_gt, risk_score. rewrite payment_ratio_finite.
  unfold outstanding_balance.
  destruct (Qltb 0 invoice) eqn:Einv.
  - apply Qltb_true in Einv.
    assert (Hnz : Qeq_bool invoice_max 0 = false)
      by (apply Qeq_bool_false; lra).
    cbn [np_sub np_neg np_add np_mul np_div np_lt np_where].
    rewrite Hnz.
    pose proof (ratio_nonneg payment invoice Hpay Einv) as Hratio.
    assert (Hrel : (invoice - payment) / invoice_max <= 1)
      by (apply ratio_le_one; lra).
    destruct (Qltb (payment / invoice) (5 # 10));
      cbn [np_where np_add np_lt]; apply Qltb_false; lra.
  - apply Qltb_false in Einv.
    cbn [np_sub np_neg np_add np_mul np_div np_lt np_where].
    assert (Hpen : Qltb 0 (5 # 10) = true) by reflexivity.
    rewrite Hpen. cbn [np_where].
    destruct (Qeq_bool invoice_max 0) eqn:Ez.
    + destruct (invoice - payment ?= 0) eqn:Ecmp; cbn; try reflexivity.
      apply Qgt_alt in Ecmp. lra.
    + apply Qeq_bool_false in Ez.
      assert (Hrel : (invoice - payment) / invoice_max <= 1)
        by (apply ratio_le_one; lra).
      cbn [np_add np_lt]. apply Qltb_false. lra.
Qed.

End RiskFacts.

Module RiskTable.
Import Risk.

(** What [payment_behavior] stores in each row. *)
Lemma payment_behavior_row (df : list txn) (rows : list behavior_row)
    (row : behavior_row) :
  payment_behavior df = Some rows ->
  In row rows ->
  exists invoice_max,
    0 <= row_Invoice row
    /\ 0 <= row_Payment row
    /\ row_Invoice row <= invoice_max
    /\ row_payment_ratio row
       = payment_ratio (row_Invoice row) (row_Payment row)
    /\ row_outstanding_balance row
       = outstanding_balance (row_Invoice row) (row_Payment row)
    /\ row_risk_score row
       = risk_score (row_Invoice row) (row_Payment row) (Fin invoice_max)
    /\ row_risk_category row = risk_category (row_risk_score row).
Proof.
  unfold payment_behavior. intros Hsome Hin.
  destruct (risk_df df) as [|r0 rest] eqn:Edf; [discriminate|].
  rewrite <- Edf in *. clear r0 rest Edf.
  destruct (has_column "Invoice" (risk_df df)
            && has_column "Payment" (risk_df df)); [|discriminate].
  injection Hsome as <-.
  apply in_map_iff in Hin as [p [<- Hp]].
  assert (Hmax : In (Invoice p) (map Invoice (pivot_table (risk_df df))))
    by (apply in_map; exact Hp).
  apply RiskFacts.series_max_ge in Hmax as [m [Hm Hle]].
  rewrite Hm. exists m.
  unfold pivot_table in Hp. apply in_map_iff in Hp as [c [<- _]].
  cbn [row_Invoice row_Payment row_payment_ratio row_outstanding_balance
       row_risk_score row_risk_category Invoice Payment] in *.
  repeat split; try reflexivity; try exact Hle;
    apply RiskFacts.pivot_cell_nonneg; intros r Hr;
    exact (RiskFacts.risk_df_nonneg df r Hr).
Qed.

Lemma table_score_not_above_one (df : list txn) (rows : list behavior_row)
    (row : behavior_row) :
  payment_behavior df = Some rows ->
  In row rows ->
  np_gt (row_risk_score row) (Fin 1) = false.
Proof.
  intros Hsome Hin.
  destruct (payment_behavior_row df rows row Hsome Hin)
    as [m [Hinv [Hpay [Hle [_ [_ [Hscore _]]]]]]].
  rewrite Hscore. apply RiskFacts.risk_score_not_above_one; assumption.
Qed.

(** Inside the bins the category follows the thresholds 0.2 and 0.5. *)
Lemma risk_category_in_bins (score : Q) :
  0 < score -> score <= 1 ->
  risk_category (Fin score)
  = Some (if Qle_bool score (2 # 10) then "Low Risk"
          else if Qle_bool score (5 # 10) then "Medium Risk"
               else "High Risk")%string.
Proof.
  intros Hpos Hone.
  unfold risk_category, pd_cut, searchsorted_left. cbn [filter].
  assert (H0 : Qltb 0 score = true) by (apply Qltb_true; exact Hpos).
  assert (H1 : Qltb 1 score = false) by (apply Qltb_false; exact Hone).
  rewrite H0, H1.
  destruct (Qle_bool score (2 # 10)) eqn:E2.
  - apply Qle_bool_iff in E2.
    assert (H2 : Qltb (2 # 10) score = false) by (apply Qltb_false; lra).
    assert (H5 : Qltb (5 # 10) score = false) by (apply Qltb_false; lra).
    rewrite H2, H5. reflexivity.
  - assert (H2 : Qltb (2 # 10) score = true).
    { unfold Qltb. rewrite E2. reflexivity. }
    rewrite H2.
    destruct (Qle_bool score (5 # 10)) eqn:E5.
    + apply Qle_bool_iff in E5.
      assert (H5 : Qltb (5 # 10) score = false) by (apply Qltb_false; lra).
      rewrite H5. reflexivity.
    + assert (H5 : Qltb (5 # 10) score = true).
      { unfold Qltb. rewrite E5. reflexivity. }
      rewrite H5. reflexivity.
Qed.

(** At or below the first edge, and above the last one, [pd.cut] leaves the
    category missing. *)
Lemma risk_category_outside_bins (score : Q) :
  score <= 0 \/ 1 < score -> risk_category (Fin score) = None.
Proof.
  intros Hout.
  unfold risk_category, pd_cut, searchsorted_left. cbn [filter].
  destruct Hout as [Hlow | Hhigh].
  - assert (H0 : Qltb 0 score = false) by (apply Qltb_false; lra).
    assert (H2 : Qltb (2 # 10) score = false) by (apply Qltb_false; lra).
    assert (H5 : Qltb (5 # 10) score = false) by (apply Qltb_false; lra).
    assert (H1 : Qltb 1 score = false) by (apply Qltb_false; lra).
    rewrite H0, H2, H5, H1. reflexivity.
  - assert (H0 : Qltb 0 score = true) by (apply Qltb_true; lra).
    assert (H2 : Qltb (2 # 10) score = true) by (apply Qltb_true; lra).
    assert (H5 : Qltb (5 # 10) score = true) by (apply Qltb_true; lra).
    assert (H1 : Qltb 1 score = true) by (apply Qltb_true; lra).
    rewrite H0, H2, H5, H1. reflexivity.
Qed.

End RiskTable.

(** ** Claims on the risk scorer *)

(** C7.  For every customer aggregate whose invoice total is zero the
    payment ratio is exactly 0: [np.where] discards the quotient
    [Payment / Invoice], which for a zero denominator is [nan] or an
    infinity, and selects the constant; the same holds for every row of the
    [payment_behavior] table. *)
Theorem payment_ratio_zero_when_no_invoices (invoice payment : Q) :
  invoice == 0 ->
  Risk.payment_ratio invoice payment = Risk.Fin 0
  /\ (exists c, Risk.np_div (Risk.Fin payment) (Risk.Fin invoice)
                = Risk.signed_inf c)
  /\ (forall df rows row,
         Risk.payment_behavior df = Some rows ->
         In row rows ->
         Risk.row_Invoice row == 0 ->
         Risk.row_payment_ratio row = Risk.Fin 0).
Proof.
  intros Hzero.
  assert (Hratio : forall i p, i == 0 ->
                               Risk.payment_ratio i p = Risk.Fin 0).
  { intros i p Hi. rewrite RiskFacts.payment_ratio_finite.
    assert (Hguard : Qltb 0 i = false) by (apply Qltb_false; lra).
    rewrite Hguard. reflexivity. }
  split; [exact (Hratio _ _ Hzero)|]. split.
  - exists (payment ?= 0). unfold Risk.np_div.
    assert (Hz : Qeq_bool invoice 0 = true)
      by (apply Qeq_bool_iff; exact Hzero).
    rewrite Hz. reflexivity.
  - intros df rows row Hsome Hin Hrow.
    destruct (RiskTable.payment_behavior_row df rows row Hsome Hin)
      as [m [_ [_ [_ [Hpr _]]]]].
    rewrite Hpr. exact (Hratio _ _ Hrow).
Qed.

Lemma payment_ratio_zero_when_no_invoices_witness :
  0 == 0
  /\ Risk.payment_ratio 0 30 = Risk.Fin 0
  /\ Risk.np_div (Risk.Fin 30) (Risk.Fin 0) = Risk.PosInf
  /\ Risk.np_div (Risk.Fin 0) (Risk.Fin 0) = Risk.NaN.
Proof.
  assert (H : 0 == 0) by reflexivity.
  split; [exact H|].
  split; [exact (proj1 (payment_ratio_zero_when_no_invoices 0 30 H))|].
  split; reflexivity.
Defined.

(** C4 (as amended).  With amounts taken as absolute values and the relative
    balance taken against the largest invoice total, no customer's risk
    score exceeds 1.0; the bound is reached by a customer that holds the
    largest invoice total and has paid nothing. *)
Theorem risk_score_at_most_one :
  (forall df rows row,
      Risk.payment_behavior df = Some rows ->
      In row rows ->
      Risk.np_gt (Risk.row_risk_score row) (Risk.Fin 1) = false)
  /\ (exists df row score,
         Risk.payment_behavior df = Some [row]
         /\ Risk.row_risk_score row = Risk.Fin score
         /\ score == 1).
Proof.
  split.
  - exact RiskTable.table_score_not_above_one.
  - exists [Risk.mk_txn "Acme" "Invoice" 100; Risk.mk_txn "Acme" "Payment" 0].
    eexists. eexists. split; [reflexivity|]. split; reflexivity.
Qed.

Lemma risk_score_at_most_one_witness :
  let df := [Risk.mk_txn "Acme" "Invoice" 100;
             Risk.mk_txn "Acme" "Payment" (-10);
             Risk.mk_txn "Bolt" "Invoice" 400] in
  exists rows row,
    Risk.payment_behavior df = Some rows
    /\ nth_error rows 1 = Some row
    /\ Risk.np_gt (Risk.row_risk_score row) (Risk.Fin 1) = false.
Proof.
  intros df.
  destruct (Risk.payment_behavior df) as [rows|] eqn:Hrows; [|discriminate].
  destruct (nth_error rows 1) as [row|] eqn:Hrow;
    [|vm_compute in Hrows; injection Hrows as <-; discriminate].
  exists rows, row. repeat split; try assumption.
  exact (proj1 risk_score_at_most_one df rows row Hrows
               (nth_error_In rows 1 Hrow)).
Defined.

(** C4 fails as stated: no table of customer aggregates contains a risk
    score above 1.0. *)
Lemma risk_score_above_one_impossible :
  ~ exists df rows row,
      Risk.payment_behavior df = Some rows
      /\ In row rows
      /\ Risk.np_gt (Risk.row_risk_score row) (Risk.Fin 1) = true.
Proof.
  intros [df [rows [row [Hsome [Hin Hgt]]]]].
  rewrite (RiskTable.table_score_not_above_one df rows row Hsome Hin) in Hgt.
  discriminate.
Qed.

(** C3 (the code at the failing inputs).  A customer who has paid every
    invoice in full scores 0 and is given no category, and so is a customer
    who has overpaid (negative score); in general [pd.cut] leaves the
    category missing for every score at or below 0 and above 1, while inside
    (0, 1] the category follows the thresholds 0.2 and 0.5. *)
Theorem risk_category_missing_at_zero_score :
  (exists row score,
      Risk.payment_behavior [Risk.mk_txn "Acme" "Invoice" 100;
                             Risk.mk_txn "Acme" "Payment" 100]
      = Some [row]
      /\ Risk.row_risk_score row = Risk.Fin score
      /\ score == 0
      /\ Risk.row_risk_category row = None)
  /\ (exists row score,
         Risk.payment_behavior [Risk.mk_txn "Acme" "Invoice" 100;
                                Risk.mk_txn "Acme" "Payment" 150]
         = Some [row]
         /\ Risk.row_risk_score row = Risk.Fin score
         /\ score < 0
         /\ Risk.row_risk_category row = None)
  /\ (forall score,
         score <= 0 \/ 1 < score -> Risk.risk_category (Risk.Fin score) = None)
  /\ (forall score,
         0 < score -> score <= 1 ->
         Risk.risk_category (Risk.Fin score)
         = Some (if Qle_bool score (2 # 10) then "Low Risk"
                 else if Qle_bool score (5 # 10) then "Medium Risk"
                      else "High Risk")%string).
Proof.
  split; [|split; [|split]].
  - eexists. eexists. split; [reflexivity|]. repeat split.
  - eexists. eexists. split; [reflexivity|]. repeat split.
  - exact RiskTable.risk_category_outside_bins.
  - exact RiskTable.risk_category_in_bins.
Qed.


(** ** The loan-id join *)

Module CombineFacts.
Import Combine.

Lemma in_merge_inner (deals mca : list (Z * string)) (row : combined_row) :
  In row (merge_inner deals mca) <->
  exists d m,
    In d deals /\ In m mca /\ snd d = snd m
    /\ row = mk_combined_row (fst d) (snd d) (fst m) (snd m).
Proof.
  unfold merge_inner. rewrite in_flat_map. split.
  - intros [d [Hd Hrow]]. apply in_map_iff in Hrow as [m [<- Hm]].
    apply filter_In in Hm as [Hm Heq]. apply String.eqb_eq in Heq.
    exists d, m. auto.
  - intros [d [m [Hd [Hm [Heq ->]]]]]. exists d. split; [exact Hd|].
    apply in_map_iff. exists m. split; [reflexivity|].
    apply filter_In. split; [exact Hm|]. apply String.eqb_eq, Heq.
Qed.

(** What the join does guarantee: each output row pairs a deal whose
    [loan_id] is not null with an MCA row whose [deal_number], cast to text,
    is the same string. *)
Lemma combine_deals_rows (deals : list deal) (mca : list mca_deal)
    (row : combined_row) :
  In row (join_deals deals mca) <->
  exists d m key,
    In d deals /\ In m mca
    /\ loan_id d = Some key
    /\ astype_str (deal_number m) = key
    /\ row = mk_combined_row (deal_id d) key (mca_id m) key.
Proof.
  unfold join_deals. rewrite in_merge_inner. split.
  - intros [d' [m' [Hd [Hm [Heq ->]]]]].
    apply in_map_iff in Hd as [d [<- Hd]].
    apply in_map_iff in Hm as [m [<- Hm]].
    apply filter_In in Hd as [Hd Hnotna].
    cbn [fst snd] in *.
    destruct (loan_id d) as [key|] eqn:Ekey; [|discriminate].
    exists d, m, key. cbn [astype_str] in *.
    repeat split; auto. rewrite <- Heq. reflexivity.
  - intros [d [m [key [Hd [Hm [Hkey [Hnum ->]]]]]]].
    exists (deal_id d, astype_str (loan_id d)),
           (mca_id m, astype_str (deal_number m)).
    cbn [fst snd]. rewrite Hkey, Hnum. cbn [astype_str].
    repeat split.
    + apply in_map_iff. exists d. rewrite Hkey. split; [reflexivity|].
      apply filter_In. split; [exact Hd|]. rewrite Hkey. reflexivity.
    + apply in_map_iff. exists m. rewrite Hnum. split; [reflexivity | exact Hm].
Qed.

(** [combine_deals] returns exactly when both tables have rows, and then
    returns the join. *)
Lemma combine_deals_ok (deals : list deal) (mca : list mca_deal)
    (rows : list combined_row) :
  combine_deals deals mca = Ok rows <->
  deals <> [] /\ mca <> [] /\ rows = join_deals deals mca.
Proof.
  unfold combine_deals. destruct deals as [|d deals].
  - split; [discriminate | intros [H _]; contradiction].
  - destruct mca as [|m mca].
    + split; [discriminate | intros [_ [H _]]; contradiction].
    + split.
      * intros H. injection H as <-. repeat split; discriminate.
      * intros [_ [_ ->]]. reflexivity.
Qed.

End CombineFacts.

(** ** Claims on the loan-id join *)

(** C9 (the code at the failing inputs).  A deal and an MCA row whose keys
    are both the empty string, or both blank, are joined although the audit
    counts such a loan id as missing; a null [deal_number] is cast to the
    text "None" and matches a deal carrying that text.  Only deals with a
    null [loan_id] are kept out of the join. *)
Theorem combine_deals_joins_empty_loan_ids :
  (Combine.combine_deals [Combine.mk_deal 1 (Some ""%string)]
                         [Combine.mk_mca_deal 7 (Some ""%string)]
   = Combine.Ok [Combine.mk_combined_row 1 "" 7 ""]
   /\ Combine.missing_loan_id (Some ""%string) = true)
  /\ (Combine.combine_deals [Combine.mk_deal 2 (Some " "%string)]
                            [Combine.mk_mca_deal 8 (Some " "%string)]
      = Combine.Ok [Combine.mk_combined_row 2 " " 8 " "]
      /\ Combine.missing_loan_id (Some " "%string) = true)
  /\ Combine.combine_deals [Combine.mk_deal 3 (Some "None"%string)]
                           [Combine.mk_mca_deal 9 None]
     = Combine.Ok [Combine.mk_combined_row 3 "None" 9 "None"]
  /\ Combine.combine_deals [Combine.mk_deal 4 None]
                           [Combine.mk_mca_deal 9 None]
     = Combine.Ok []
  /\ (forall deals mca rows row,
         Combine.combine_deals deals mca = Combine.Ok rows ->
         In row rows ->
         exists d, In d deals
                   /\ Combine.loan_id d
                      = Some (Combine.combined_loan_id row)).
Proof.
  repeat split.
  intros deals mca rows row Hok Hrow.
  apply CombineFacts.combine_deals_ok in Hok as [_ [_ ->]].
  apply CombineFacts.combine_deals_rows in Hrow
    as [d [m [key [Hd [_ [Hkey [_ ->]]]]]]].
  exists d. split; [exact Hd | exact Hkey].
Qed.

(** * Further properties of the forecaster *)

Module ForecastMore.
Import Forecast.

Section Rows.

Variables deployment_rate inflow_rate opex_rate min_cash_threshold : Q.

Let step := forecast_step deployment_rate inflow_rate opex_rate
                          min_cash_threshold.
Let loop := forecast_loop deployment_rate inflow_rate opex_rate
                          min_cash_threshold.

(** Every row of the loop is the loop body applied to some balance. *)
Lemma forecast_loop_In (n : nat) :
  forall current_cash row,
    In row (loop n current_cash) -> exists c, row = step c.
Proof.
  induction n as [|n IH]; intros c row Hrow.
  - contradiction.
  - change (loop (S n) c)
      with (step c :: loop n (cash_position (step c))) in Hrow.
    destruct Hrow as [<- | Hrow]; [exists c; reflexivity|].
    exact (IH _ _ Hrow).
Qed.

(** A row of index [i + 1] of the table is the loop body applied to the
    cash position of row [i]. *)
Lemma forecast_loop_succ (n : nat) :
  forall current_cash i prev row,
    nth_error (mk_period current_cash 0 0 0 0 :: loop n current_cash) i
    = Some prev ->
    nth_error (loop n current_cash) i = Some row ->
    row = step (cash_position prev).
Proof.
  induction n as [|n IH]; intros c i prev row Hprev Hrow.
  - destruct i; discriminate.
  - change (loop (S n) c)
      with (step c :: loop n (cash_position (step c))) in *.
    destruct i as [|i]; cbn [nth_error] in Hprev, Hrow.
    + injection Hprev as <-. injection Hrow as <-. reflexivity.
    + destruct i as [|i]; cbn [nth_error] in Hprev.
      * injection Hprev as <-.
        exact (IH (cash_position (step c)) 0%nat _ row eq_refl Hrow).
      * exact (IH (cash_position (step c)) (S i) prev row Hprev Hrow).
Qed.

Lemma forecast_step_passthrough (c : Q) :
  inflows (step c) = inflow_rate /\ opex (step c) = opex_rate.
Proof. split; reflexivity. Qed.

(** A deployment strictly between zero and the scenario rate means that
    the throttle fired with usable cash left. *)
Lemma forecast_step_partial (c : Q) :
  0 < deployment (step c) ->
  deployment (step c) < deployment_rate ->
  deployment (step c) = c - min_cash_threshold - opex_rate
  /\ cash_position (step c) == min_cash_threshold + inflow_rate.
Proof.
  unfold step, forecast_step. cbn [deployment cash_position].
  destruct (Qltb (c - deployment_rate - opex_rate) min_cash_threshold).
  - unfold py_max.
    destruct (Qltb 0 (c - min_cash_threshold - opex_rate)).
    + intros _ _. split; [reflexivity | ring].
    + intros Hpos _. exfalso. lra.
  - intros _ Hlt. exfalso. lra.
Qed.

End Rows.

Lemma py_min_le_l (a b : Q) : py_min a b <= a.
Proof.
  unfold py_min. destruct (Qltb b a) eqn:E.
  - apply Qltb_true in E. lra.
  - lra.
Qed.

Lemma py_min_le_r (a b : Q) : py_min a b <= b.
Proof.
  unfold py_min. destruct (Qltb b a) eqn:E.
  - lra.
  - apply Qltb_false in E. lra.
Qed.

Lemma fold_py_min_init (l : list Q) (a : Q) : fold_left py_min l a <= a.
Proof.
  revert a. induction l as [|y l IH]; intros a; cbn [fold_left].
  - lra.
  - pose proof (IH (py_min a y)). pose proof (py_min_le_l a y). lra.
Qed.

Lemma fold_py_min_lower (l : list Q) (a z : Q) :
  In z (a :: l) -> fold_left py_min l a <= z.
Proof.
  revert a. induction l as [|y l IH]; intros a Hz; cbn [fold_left].
  - destruct Hz as [<- | []]. lra.
  - destruct Hz as [<- | [<- | Hz]].
    + pose proof (fold_py_min_init l (py_min a y)).
      pose proof (py_min_le_l a y). lra.
    + pose proof (fold_py_min_init l (py_min a y)).
      pose proof (py_min_le_r a y). lra.
    + apply IH. now right.
Qed.

Lemma fold_py_min_attained (l : list Q) (a : Q) :
  In (fold_left py_min l a) (a :: l).
Proof.
  revert a. induction l as [|y l IH]; intros a; cbn [fold_left].
  - now left.
  - destruct (IH (py_min a y)) as [H | H].
    + unfold py_min in H at 1. rewrite <- H.
      unfold py_min. destruct (Qltb y a); [right; now left | now left].
    + right. now right.
Qed.

Lemma div_antimonotone (a x y : Q) :
  0 <= a -> 0 < x -> x <= y -> a / y <= a / x.
Proof.
  intros Ha Hx Hxy.
  apply Qle_shift_div_l; [exact Hx|].
  assert (Hy : 0 < y) by lra.
  assert (Heq : a / y * x == a * x / y) by (field; lra).
  rewrite Heq. apply Qle_shift_div_r; [exact Hy|].
  nra.
Qed.

Lemma py_abs_neg (x : Q) : x < 0 -> py_abs x == - x.
Proof. intros H. unfold py_abs. apply Qabs_neg. lra. Qed.

Lemma series_sum_abs_nonneg (column : list (option Q)) :
  0 <= series_sum (series_abs column).
Proof.
  unfold series_abs.
  induction column as [|[x|] column IH]; cbn [map option_map series_sum].
  - lra.
  - pose proof (Qabs_nonneg x) as H. change (Qabs x) with (py_abs x) in H.
    lra.
  - exact IH.
Qed.

End ForecastMore.

(** Only deployment is throttled: for a non-negative scenario rate, every
    period written by the loop records a deployment between zero and the
    scenario rate, while inflows and operating expenses are recorded
    unchanged. *)
Theorem only_deployment_is_throttled
    (deployment_rate inflow_rate opex_rate min_cash_threshold starting_cash : Q)
    (forecast_horizon : nat) (row : period) :
  0 <= deployment_rate ->
  In row (forecast_loop deployment_rate inflow_rate opex_rate
                        min_cash_threshold forecast_horizon starting_cash) ->
  0 <= deployment row
  /\ deployment row <= deployment_rate
  /\ inflows row = inflow_rate
  /\ opex row = opex_rate.
Proof.
  intros Hdep Hrow.
  apply ForecastMore.forecast_loop_In in Hrow as [c ->].
  destruct (ForecastFacts.forecast_step_deployment
              deployment_rate inflow_rate opex_rate min_cash_threshold c Hdep)
    as [Hlo Hhi].
  repeat split; assumption.
Qed.

Lemma only_deployment_is_throttled_witness :
  0 <= 100000
  /\ Forall (fun row => 0 <= deployment row /\ deployment row <= 100000
                        /\ inflows row = 0 /\ opex row = 2500)
            (forecast_loop 100000 0 2500 100000 6 500000).
Proof.
  assert (H : 0 <= 100000) by (vm_compute; discriminate).
  split; [exact H|].
  apply Forall_forall. intros row Hrow.
  exact (only_deployment_is_throttled 100000 0 2500 100000 500000 6 row
                                      H Hrow).
Defined.

(** A period whose deployment was cut by the throttle, but not to zero,
    deploys all the cash above the reserve that is left after expenses and
    ends exactly at the reserve plus the period's inflows. *)
Theorem partly_throttled_period_ends_on_reserve
    (deployment_rate inflow_rate opex_rate starting_cash min_cash_threshold : Q)
    (forecast_horizon i : nat) (prev row : period) :
  let rows := forecast_data deployment_rate inflow_rate opex_rate
                            starting_cash min_cash_threshold
                            forecast_horizon in
  nth_error rows i = Some prev ->
  nth_error rows (S i) = Some row ->
  0 < deployment row ->
  deployment row < deployment_rate ->
  deployment row = cash_position prev - min_cash_threshold - opex_rate
  /\ cash_position row == min_cash_threshold + inflow_rate.
Proof.
  intros rows Hprev Hrow Hpos Hcut. subst rows.
  unfold forecast_data, starting_row in Hprev, Hrow.
  cbn [nth_error] in Hrow.
  pose proof (ForecastMore.forecast_loop_succ
                deployment_rate inflow_rate opex_rate min_cash_threshold
                forecast_horizon starting_cash i prev row Hprev Hrow) as ->.
  apply ForecastMore.forecast_step_partial; assumption.
Qed.

Lemma partly_throttled_period_ends_on_reserve_witness :
  exists prev row,
    nth_error (forecast_data 100000 5000 2500 500000 100000 6) 4 = Some prev
    /\ nth_error (forecast_data 100000 5000 2500 500000 100000 6) 5
       = Some row
    /\ 0 < deployment row
    /\ deployment row < 100000
    /\ deployment row = cash_position prev - 100000 - 2500
    /\ cash_position row == 100000 + 5000.
Proof.
  destruct (nth_error (forecast_data 100000 5000 2500 500000 100000 6) 4)
    as [prev|] eqn:Hprev; [|discriminate].
  destruct (nth_error (forecast_data 100000 5000 2500 500000 100000 6) 5)
    as [row|] eqn:Hrow; [|discriminate].
  exists prev, row.
  split; [reflexivity|]. split; [reflexivity|].
  assert (Hpos : 0 < deployment row).
  { pose proof Hrow as H. vm_compute in H. injection H as <-.
    vm_compute. reflexivity. }
  assert (Hcut : deployment row < 100000).
  { pose proof Hrow as H. vm_compute in H. injection H as <-.
    vm_compute. reflexivity. }
  split; [exact Hpos|]. split; [exact Hcut|].
  exact (partly_throttled_period_ends_on_reserve
           100000 5000 2500 500000 100000 6 4 prev row Hprev Hrow Hpos Hcut).
Defined.


(** "Break-even Deploy" is the deployment rate at which the net flow per
    period is zero, and the net flow is non-negative exactly for deployment
    rates up to it. *)
Theorem breakeven_deployment_is_neutral (inflow_rate opex_rate : Q) :
  net_flow_per_period (breakeven_deployment inflow_rate opex_rate)
                      inflow_rate opex_rate == 0
  /\ (forall deployment_rate,
         0 <= net_flow_per_period deployment_rate inflow_rate opex_rate
         <-> deployment_rate <= breakeven_deployment inflow_rate opex_rate).
Proof.
  unfold net_flow_per_period, breakeven_deployment. split.
  - ring.
  - intros d. split; intros H; lra.
Qed.

(** The warning "Cash will fall below minimum reserve" is raised exactly
    when some row of the table has a cash position below the reserve; in
    particular it is never raised for a projection that starts at or above
    the reserve with non-negative inflows that cover operating expenses. *)
Theorem below_reserve_warning_exact :
  (forall rows min_cash_threshold,
      below_reserve_warning rows min_cash_threshold = true
      <-> exists row, In row rows /\ cash_position row < min_cash_threshold)
  /\ (forall deployment_rate inflow_rate opex_rate starting_cash
             min_cash_threshold forecast_horizon,
         min_cash_threshold <= starting_cash ->
         0 <= inflow_rate ->
         opex_rate <= inflow_rate ->
         below_reserve_warning
           (forecast_data deployment_rate inflow_rate opex_rate
                          starting_cash min_cash_threshold forecast_horizon)
           min_cash_threshold
         = false).
Proof.
  assert (Hiff : forall rows mct,
             below_reserve_warning rows mct = true
             <-> exists row, In row rows /\ cash_position row < mct).
  { intros rows mct. unfold below_reserve_warning.
    destruct rows as [|r rest]; cbn [map].
    - split; [discriminate | intros [row [[] _]]].
    - rewrite Qltb_true. split.
      + intros Hlt.
        destruct (ForecastMore.fold_py_min_attained
                    (map cash_position rest) (cash_position r)) as [H | H].
        * exists r. split; [now left|]. rewrite H. exact Hlt.
        * apply in_map_iff in H as [row [Hrow Hin]].
          exists row. split; [now right|]. rewrite Hrow. exact Hlt.
      + intros [row [Hin Hlt]].
        assert (Hmem : In (cash_position row)
                          (cash_position r :: map cash_position rest)).
        { destruct Hin as [<- | Hin]; [now left|].
          right. apply in_map. exact Hin. }
        pose proof (ForecastMore.fold_py_min_lower _ _ _ Hmem). lra. }
  split; [exact Hiff|].
  intros dr ir opx sc mct h Hstart Hin Hcover.
  destruct (below_reserve_warning (forecast_data dr ir opx sc mct h) mct)
    eqn:E; [|reflexivity].
  apply Hiff in E as [row [[<- | Hrow] Hlt]].
  - cbn [starting_row cash_position] in Hlt. lra.
  - pose proof (ForecastFacts.forecast_loop_floor
                  dr ir opx mct h Hin Hcover sc Hstart row Hrow). lra.
Qed.

(** Scenario analysis.  The change in ending cash is the change in net flow
    times the horizon, that is
    [(inflow_rate * inflow_change - deployment_rate * deployment_change)
     / 100 * forecast_horizon]; with both sliders at zero the adjusted
    scenario is the base scenario. *)
Theorem scenario_delta_ending
    (deployment_rate inflow_rate opex_rate starting_cash : Q)
    (deployment_change inflow_change : Z) (forecast_horizon : nat) :
  delta_ending deployment_rate inflow_rate opex_rate starting_cash
               deployment_change inflow_change forecast_horizon
  == (inflow_rate * inject_Z inflow_change
      - deployment_rate * inject_Z deployment_change) / 100
     * inject_Z (Z.of_nat forecast_horizon)
  /\ adjusted_net_flow deployment_rate inflow_rate opex_rate 0 0
     == net_flow_per_period deployment_rate inflow_rate opex_rate
  /\ delta_ending deployment_rate inflow_rate opex_rate starting_cash
                  0 0 forecast_horizon == 0.
Proof.
  unfold delta_ending, adjusted_ending, ending_cash, adjusted_net_flow,
    adjusted_inflows, adjusted_deployment, net_flow_per_period.
  change (inject_Z 0) with 0.
  repeat split; field.
Qed.

(** Scenario analysis, runway.  For non-negative base rates, a scenario
    that does not raise deployment and does not lower inflows never
    shortens the runway: whenever an adjusted runway is shown, its delta
    against the original runway is non-negative. *)
Theorem adjusted_runway_not_shorter
    (deployment_rate inflow_rate opex_rate starting_cash min_cash_threshold : Q)
    (deployment_change inflow_change : Z) (adjusted_runway delta : Q) :
  0 <= deployment_rate ->
  0 <= inflow_rate ->
  (deployment_change <= 0)%Z ->
  (0 <= inflow_change)%Z ->
  adjusted_runway_metric deployment_rate inflow_rate opex_rate
                         starting_cash min_cash_threshold
                         deployment_change inflow_change
  = AdjustedRunway adjusted_runway delta ->
  0 <= delta.
Proof.
  intros Hdep Hin Hdc Hic.
  unfold adjusted_runway_metric.
  set (adj := adjusted_net_flow deployment_rate inflow_rate opex_rate
                                deployment_change inflow_change).
  set (net := net_flow_per_period deployment_rate inflow_rate opex_rate).
  assert (Hbetter : net <= adj).
  { subst adj net.
    unfold adjusted_net_flow, adjusted_inflows, adjusted_deployment,
      net_flow_per_period.
    assert (Hd : inject_Z deployment_change <= 0).
    { change 0 with (inject_Z 0). rewrite <- Zle_Qle. exact Hdc. }
    assert (Hi : 0 <= inject_Z inflow_change).
    { change 0 with (inject_Z 0). rewrite <- Zle_Qle. exact Hic. }
    assert (Hd' : deployment_rate * (1 + inject_Z deployment_change / 100)
                  <= deployment_rate).
    { assert (Hp : deployment_rate * inject_Z deployment_change <= 0) by nra.
      set (p := deployment_rate * inject_Z deployment_change) in Hp.
      assert (E : deployment_rate * (1 + inject_Z deployment_change / 100)
                  == deployment_rate + p * (1 # 100))
        by (subst p; field).
      rewrite E. lra. }
    assert (Hi' : inflow_rate
                  <= inflow_rate * (1 + inject_Z inflow_change / 100)).
    { assert (Hp : 0 <= inflow_rate * inject_Z inflow_change) by nra.
      set (p := inflow_rate * inject_Z inflow_change) in Hp.
      assert (E : inflow_rate * (1 + inject_Z inflow_change / 100)
                  == inflow_rate + p * (1 # 100))
        by (subst p; field).
      rewrite E. lra. }
    lra. }
  destruct (Qltb adj 0) eqn:Hadj; [|discriminate].
  apply Qltb_true in Hadj.
  destruct (Qltb 0 (starting_cash - min_cash_threshold)) eqn:Huse;
    [|discriminate].
  apply Qltb_true in Huse.
  assert (Hnet : Qltb net 0 = true) by (apply Qltb_true; lra).
  rewrite Hnet. intros H. injection H as _ <-.
  apply Qltb_true in Hnet.
  pose proof (ForecastMore.py_abs_neg adj Hadj) as Ha.
  pose proof (ForecastMore.py_abs_neg net Hnet) as Hn.
  assert (Hle : (starting_cash - min_cash_threshold) / py_abs net
                <= (starting_cash - min_cash_threshold) / py_abs adj).
  { apply ForecastMore.div_antimonotone.
    - lra.
    - rewrite Ha. lra.
    - rewrite Ha, Hn. lra. }
  exact (proj1 (Qle_minus_iff _ _) Hle).
Qed.

Lemma adjusted_runway_not_shorter_witness :
  0 <= 20000 /\ 0 <= 12000 /\ (-10 <= 0)%Z /\ (0 <= 0)%Z
  /\ exists adjusted_runway delta,
       adjusted_runway_metric 20000 12000 2500 500000 100000 (-10) 0
       = AdjustedRunway adjusted_runway delta
       /\ 0 <= delta.
Proof.
  assert (H1 : 0 <= 20000) by (vm_compute; discriminate).
  assert (H2 : 0 <= 12000) by (vm_compute; discriminate).
  assert (H3 : (-10 <= 0)%Z) by lia.
  assert (H4 : (0 <= 0)%Z) by lia.
  repeat (split; [assumption|]).
  destruct (adjusted_runway_metric 20000 12000 2500 500000 100000 (-10) 0)
    as [r d| |] eqn:E; [|discriminate|discriminate].
  exists r, d. split; [reflexivity|].
  exact (adjusted_runway_not_shorter
           20000 12000 2500 500000 100000 (-10) 0 r d H1 H2 H3 H4 E).
Defined.

(** Baseline inflow rates.  As soon as one transaction is selected the
    inclusive day count is at least one, so the guard [total_days > 0] always
    holds: QBO data is flagged as available, the weekly rate spread over
    [total_days / 7] weeks gives back the total inflows, the monthly rate is
    the weekly rate scaled by 30.44 / 7, and both rates are non-negative. *)
Theorem inflow_rates_well_defined (qbo_df : list qbo_row) :
  customer_payments qbo_df <> [] ->
  let rates := inflow_rates (Some qbo_df) in
  exists total_days,
    span_days (map txn_date (customer_payments qbo_df)) = Some total_days
    /\ (1 <= total_days)%Z
    /\ has_qbo_data rates = true
    /\ weekly_inflow_rate rates * (inject_Z total_days / 7)
       == total_inflows qbo_df
    /\ monthly_inflow_rate rates * 7
       == weekly_inflow_rate rates * DAYS_PER_MONTH
    /\ 0 <= weekly_inflow_rate rates
    /\ 0 <= monthly_inflow_rate rates.
Proof.
  intros Hne rates.
  pose proof (BaselineFacts.present_dates_customer_payments qbo_df Hne)
    as Hdates.
  destruct (span_days (map txn_date (customer_payments qbo_df)))
    as [days|] eqn:Hspan.
  2:{ exfalso. unfold span_days, Forecast.series_min, Forecast.series_max
        in Hspan.
      destruct (present (map txn_date (customer_payments qbo_df)));
        [contradiction | discriminate]. }
  pose proof (BaselineFacts.span_days_positive _ _ Hspan) as Hdays.
  exists days. split; [reflexivity|]. split; [exact Hdays|].
  assert (Hq : 1 <= inject_Z days).
  { change 1 with (inject_Z 1). rewrite <- Zle_Qle. exact Hdays. }
  assert (Htotal : 0 <= total_inflows qbo_df)
    by apply ForecastMore.series_sum_abs_nonneg.
  subst rates. unfold inflow_rates.
  destruct qbo_df as [|r0 rest]; [contradiction Hne; reflexivity|].
  destruct (customer_payments (r0 :: rest)) as [|p ps] eqn:E;
    [contradiction Hne; reflexivity|].
  rewrite Hspan.
  assert (Hpos : (0 <? days)%Z = true) by (apply Z.ltb_lt; lia).
  rewrite Hpos.
  cbn [has_qbo_data weekly_inflow_rate monthly_inflow_rate].
  set (total := total_inflows (r0 :: rest)) in *.
  set (d := inject_Z days) in *.
  unfold DAYS_PER_MONTH.
  split; [reflexivity|].
  split; [field; lra|].
  split; [field; lra|].
  split.
  - apply Qle_shift_div_l.
    + apply Qlt_shift_div_l; lra.
    + lra.
  - apply Qle_shift_div_l.
    + apply Qlt_shift_div_l; [reflexivity | lra].
    + lra.
Qed.

Lemma inflow_rates_well_defined_witness :
  let qbo_df :=
    [mk_qbo_row "Payment" "Acme" (Some 0%Z) (Some (-700));
     mk_qbo_row "Receipt" "Bolt" (Some 1123200000000000%Z) (Some 700)] in
  customer_payments qbo_df <> []
  /\ exists total_days,
       span_days (map txn_date (customer_payments qbo_df)) = Some total_days
       /\ total_days = 14%Z
       /\ weekly_inflow_rate (inflow_rates (Some qbo_df))
          * (inject_Z total_days / 7)
          == total_inflows qbo_df.
Proof.
  intros qbo_df.
  assert (Hne : customer_payments qbo_df <> []) by discriminate.
  split; [exact Hne|].
  destruct (inflow_rates_well_defined qbo_df Hne)
    as [days [Hspan [_ [_ [Hweekly _]]]]].
  exists days. split; [exact Hspan|]. split; [|exact Hweekly].
  vm_compute in Hspan. injection Hspan as <-. reflexivity.
Defined.

(** Rows that the selection mask rejects -- house accounts, other
    transaction types, undated rows -- have no effect on the baseline
    inflow rates, not even through the date range. *)
Theorem unselected_rows_leave_inflow_rates (r : qbo_row)
    (qbo_df : list qbo_row) :
  is_customer_payment r = false ->
  inflow_rates (Some (r :: qbo_df)) = inflow_rates (Some qbo_df).
Proof.
  intros Hr.
  assert (Hcp : customer_payments (r :: qbo_df) = customer_payments qbo_df).
  { unfold customer_payments. cbn [filter]. rewrite Hr. reflexivity. }
  assert (Htotal : total_inflows (r :: qbo_df) = total_inflows qbo_df).
  { unfold total_inflows. rewrite Hcp. reflexivity. }
  unfold inflow_rates. rewrite Hcp, Htotal.
  destruct qbo_df as [|r0 rest]; reflexivity.
Qed.

Lemma unselected_rows_leave_inflow_rates_witness :
  let house := mk_qbo_row "Payment" "CSL" (Some 0%Z) (Some 9000) in
  let qbo_df := [mk_qbo_row "Payment" "Acme"
                            (Some 864000000000000%Z) (Some 100)] in
  is_customer_payment house = false
  /\ inflow_rates (Some (house :: qbo_df)) = inflow_rates (Some qbo_df)
  /\ weekly_inflow_rate (inflow_rates (Some (house :: qbo_df))) == 700.
Proof.
  intros house qbo_df.
  assert (H : is_customer_payment house = false) by reflexivity.
  split; [exact H|].
  split; [exact (unselected_rows_leave_inflow_rates house qbo_df H)|].
  vm_compute. reflexivity.
Defined.

(** Baseline deployment rates.  The forecast is refused ("No valid deal
    data") exactly when no deal has a date; otherwise the deal count is
    positive, the weekly deployment rate is the number of deals per week
    times the mean deployed amount per deal, and the monthly rate is the
    weekly rate scaled by 30.44 / 7. *)
Theorem deployment_rates_consistent (closed_won_df : list deal_row) :
  (deployment_rates closed_won_df = None
   <-> filter (fun d => notna (date_created d)) closed_won_df = [])
  /\ (forall rates,
         deployment_rates closed_won_df = Some rates ->
         (0 < deal_count rates)%nat
         /\ deal_count rates
            = List.length
                (filter (fun d => notna (date_created d)) closed_won_df)
         /\ weekly_deployment_rate rates
            * inject_Z (Z.of_nat (deal_count rates))
            == deals_per_week rates * total_deployed rates
         /\ monthly_deployment_rate rates * 7
            == weekly_deployment_rate rates * DAYS_PER_MONTH).
Proof.
  unfold deployment_rates.
  set (dated := filter (fun d => notna (date_created d)) closed_won_df).
  destruct dated as [|d ds] eqn:E.
  - split; [split; reflexivity | discriminate].
  - assert (Hpresent : present (map date_created (d :: ds)) <> []).
    { assert (Hd : In d dated) by (rewrite E; now left).
      apply filter_In in Hd as [_ Hd].
      cbn [map present]. destruct (date_created d); discriminate. }
    destruct (span_days (map date_created (d :: ds))) as [days|] eqn:Hspan.
    2:{ exfalso. unfold span_days, Forecast.series_min, Forecast.series_max
          in Hspan.
        destruct (present (map date_created (d :: ds)));
          [contradiction | discriminate]. }
    pose proof (BaselineFacts.span_days_positive _ _ Hspan) as Hdays.
    assert (Hq : 1 <= inject_Z days).
    { change 1 with (inject_Z 1). rewrite <- Zle_Qle. exact Hdays. }
    assert (Hpos : (0 <? days)%Z = true) by (apply Z.ltb_lt; lia).
    rewrite Hpos.
    split; [split; discriminate|].
    assert (Hlen : (0 < List.length (d :: ds))%nat) by (cbn; lia).
    remember (series_sum (map amount (d :: ds))) as total eqn:Etotal.
    remember (List.length (d :: ds)) as n eqn:En.
    remember (inject_Z days) as q eqn:Eq.
    intros rates Hrates. injection Hrates as <-.
    cbn [deal_count weekly_deployment_rate monthly_deployment_rate
         deals_per_week total_deployed].
    split; [exact Hlen|].
    split; [reflexivity|].
    unfold DAYS_PER_MONTH.
    split; field; lra.
Qed.

(** * Further properties of the risk scorer *)

Module RiskMore.
Import Risk.

(** The customer column of the scored table is the index of the pivot. *)
Lemma payment_behavior_customers (df : list txn)
    (rows : list behavior_row) :
  payment_behavior df = Some rows ->
  map customer rows = pivot_index (risk_df df)
  /\ map row_Invoice rows
     = map (fun c => pivot_cell c "Invoice" (risk_df df))
           (pivot_index (risk_df df))
  /\ map row_Payment rows
     = map (fun c => pivot_cell c "Payment" (risk_df df))
           (pivot_index (risk_df df))
  /\ map row_outstanding_balance rows
     = map (fun c => pivot_cell c "Invoice" (risk_df df)
                     - pivot_cell c "Payment" (risk_df df))
           (pivot_index (risk_df df)).
Proof.
  unfold payment_behavior. intros Hsome.
  destruct (risk_df df) as [|r0 rest] eqn:Edf; [discriminate|].
  rewrite <- Edf in *. clear r0 rest Edf.
  destruct (has_column "Invoice" (risk_df df)
            && has_column "Payment" (risk_df df)); [|discriminate].
  injection Hsome as <-. unfold pivot_table.
  rewrite !map_map. cbn [customer row_Invoice row_Payment
                         row_outstanding_balance pivot_customer
                         Invoice Payment].
  unfold outstanding_balance. rewrite map_id. repeat split.
Qed.

Lemma in_risk_df (df : list txn) (c : string) :
  In c (map customer_name (risk_df df)) <->
  exists r, In r df
            /\ customer_name r = c
            /\ (transaction_type r = "Invoice"%string
                \/ transaction_type r = "Payment"%string)
            /\ c <> "CSL"%string /\ c <> "VEEM"%string.
Proof.
  unfold risk_df. rewrite map_map. cbn [customer_name].
  rewrite in_map_iff. split.
  - intros [r [<- Hr]].
    apply filter_In in Hr as [Hr Hhouse].
    apply filter_In in Hr as [Hr Htype].
    apply isin_In in Htype. apply negb_true_iff in Hhouse.
    exists r. repeat split; try assumption.
    + destruct Htype as [H | [H | []]]; auto.
    + intros H. rewrite H in Hhouse. discriminate.
    + intros H. rewrite H in Hhouse. discriminate.
  - intros [r [Hr [<- [Htype [Hcsl Hveem]]]]].
    exists r. split; [reflexivity|].
    apply filter_In. split.
    + apply filter_In. split; [exact Hr|].
      apply isin_In. destruct Htype as [-> | ->]; simpl; auto.
    + apply negb_true_iff.
      destruct (isin (customer_name r) ["CSL"; "VEEM"]%string) eqn:E;
        [|reflexivity].
      apply isin_In in E. destruct E as [E | [E | []]]; congruence.
Qed.

(** Summing an amount placed at one key of a duplicate-free index. *)
Lemma column_sum_indicator (index : list string) (key : string) (a : Q) :
  NoDup index ->
  column_sum (map (fun c => if String.eqb key c then a else 0) index)
  == (if in_dec string_dec key index then a else 0).
Proof.
  induction index as [|c index IH]; intros Hnd; cbn [map column_sum].
  - destruct (in_dec string_dec key []) as [[]|]. reflexivity.
  - inversion Hnd as [|? ? Hnotin Hnd']; subst.
    rewrite (IH Hnd').
    destruct (String.eqb key c) eqn:E.
    + apply String.eqb_eq in E. subst c.
      destruct (in_dec string_dec key index) as [Hin|_]; [contradiction|].
      destruct (in_dec string_dec key (key :: index)) as [_|Hn];
        [ring | exfalso; apply Hn; now left].
    + apply String.eqb_neq in E.
      destruct (in_dec string_dec key index) as [Hin|Hn];
        destruct (in_dec string_dec key (c :: index)) as [Hin'|Hn'];
        try ring.
      * exfalso. apply Hn'. now right.
      * exfalso. destruct Hin' as [H | H]; [congruence | contradiction].
Qed.

Lemma column_sum_plus (A : Type) (f g : A -> Q) (l : list A) :
  column_sum (map (fun x => f x + g x) l)
  == column_sum (map f l) + column_sum (map g l).
Proof.
  induction l as [|x l IH]; cbn [map column_sum].
  - ring.
  - rewrite IH. ring.
Qed.

Lemma column_sum_minus (A : Type) (f g : A -> Q) (l : list A) :
  column_sum (map (fun x => f x - g x) l)
  == column_sum (map f l) - column_sum (map g l).
Proof.
  induction l as [|x l IH]; cbn [map column_sum].
  - ring.
  - rewrite IH. ring.
Qed.

Lemma column_sum_ext (A : Type) (f g : A -> Q) (l : list A) :
  (forall x, f x == g x) ->
  column_sum (map f l) == column_sum (map g l).
Proof.
  intros Hfg. induction l as [|x l IH]; cbn [map column_sum].
  - reflexivity.
  - rewrite IH, (Hfg x). reflexivity.
Qed.

Lemma column_sum_zero (A : Type) (l : list A) :
  column_sum (map (fun _ => 0) l) == 0.
Proof.
  induction l as [|x l IH]; cbn [map column_sum].
  - reflexivity.
  - rewrite IH. ring.
Qed.

(** The pivot preserves the total of each transaction type. *)
Lemma pivot_preserves_type_total (type : string) (rows : list txn)
    (index : list string) :
  NoDup index ->
  (forall r, In r rows -> In (customer_name r) index) ->
  column_sum (map (fun c => pivot_cell c type rows) index)
  == type_total type rows.
Proof.
  intros Hnd. induction rows as [|r rows IH]; intros Hall.
  - unfold type_total. cbn [pivot_cell filter map column_sum].
    apply column_sum_zero.
  - assert (Hrest : column_sum (map (fun c => pivot_cell c type rows) index)
                    == type_total type rows).
    { apply IH. intros r' Hr'. apply Hall. now right. }
    assert (Hr : In (customer_name r) index) by (apply Hall; now left).
    unfold type_total in *. cbn [filter].
    destruct (String.eqb (transaction_type r) type) eqn:Etype.
    + cbn [map column_sum]. rewrite <- Hrest.
      rewrite (column_sum_ext _
                 (fun c => pivot_cell c type (r :: rows))
                 (fun c => (if String.eqb (customer_name r) c
                            then total_amount r else 0)
                           + pivot_cell c type rows)).
      * rewrite column_sum_plus, (column_sum_indicator _ _ _ Hnd).
        destruct (in_dec string_dec (customer_name r) index);
          [ring | contradiction].
      * intros c. cbn [pivot_cell]. rewrite Etype, andb_true_r.
        destruct (String.eqb (customer_name r) c); ring.
    + rewrite <- Hrest. apply column_sum_ext.
      intros c. cbn [pivot_cell]. rewrite Etype, andb_false_r. reflexivity.
Qed.

End RiskMore.

(** The scored table has exactly one row per customer that has at least one
    invoice or payment and is not a house account ("CSL", "VEEM"): no house
    account is scored and no other such customer is left out. *)
Theorem scored_customers_are_the_non_house_customers
    (df : list Risk.txn) (rows : list Risk.behavior_row) :
  Risk.payment_behavior df = Some rows ->
  NoDup (map Risk.customer rows)
  /\ forall c,
       In c (map Risk.customer rows) <->
       exists r, In r df
                 /\ Risk.customer_name r = c
                 /\ (Risk.transaction_type r = "Invoice"%string
                     \/ Risk.transaction_type r = "Payment"%string)
                 /\ c <> "CSL"%string /\ c <> "VEEM"%string.
Proof.
  intros Hsome.
  destruct (RiskMore.payment_behavior_customers df rows Hsome) as [Hc _].
  rewrite Hc. unfold Risk.pivot_index. split.
  - apply NoDup_nodup.
  - intros c. rewrite nodup_In. apply RiskMore.in_risk_df.
Qed.

Lemma scored_customers_are_the_non_house_customers_witness :
  let df := [Risk.mk_txn "Acme" "Invoice" 100;
             Risk.mk_txn "CSL" "Invoice" 900;
             Risk.mk_txn "Acme" "Payment" (-40);
             Risk.mk_txn "Bolt" "Payment" 10;
             Risk.mk_txn "Core" "Deposit" 70] in
  exists rows,
    Risk.payment_behavior df = Some rows
    /\ map Risk.customer rows = ["Acme"; "Bolt"]%string
    /\ NoDup (map Risk.customer rows).
Proof.
  intros df.
  destruct (Risk.payment_behavior df) as [rows|] eqn:E; [|discriminate].
  exists rows. split; [reflexivity|]. split.
  - vm_compute in E. injection E as <-. reflexivity.
  - exact (proj1 (scored_customers_are_the_non_house_customers df rows E)).
Defined.

(** "Total Outstanding" is the total of the invoices minus the total of the
    payments of the scored customers, amounts in absolute value: grouping by
    customer loses nothing. *)
Theorem total_outstanding_is_invoices_minus_payments
    (df : list Risk.txn) (rows : list Risk.behavior_row) :
  Risk.payment_behavior df = Some rows ->
  Risk.total_outstanding rows
  == Risk.type_total "Invoice" (Risk.risk_df df)
     - Risk.type_total "Payment" (Risk.risk_df df)
  /\ Risk.column_sum (map Risk.row_Invoice rows)
     == Risk.type_total "Invoice" (Risk.risk_df df)
  /\ Risk.column_sum (map Risk.row_Payment rows)
     == Risk.type_total "Payment" (Risk.risk_df df).
Proof.
  intros Hsome.
  destruct (RiskMore.payment_behavior_customers df rows Hsome)
    as [_ [Hinv [Hpay Hout]]].
  assert (Hnd : NoDup (Risk.pivot_index (Risk.risk_df df)))
    by apply NoDup_nodup.
  assert (Hall : forall r, In r (Risk.risk_df df) ->
                           In (Risk.customer_name r)
                              (Risk.pivot_index (Risk.risk_df df))).
  { intros r Hr. apply nodup_In. apply in_map. exact Hr. }
  pose proof (RiskMore.pivot_preserves_type_total
                "Invoice" _ _ Hnd Hall) as Hi.
  pose proof (RiskMore.pivot_preserves_type_total
                "Payment" _ _ Hnd Hall) as Hp.
  unfold Risk.total_outstanding. rewrite Hout, Hinv, Hpay.
  split; [|split; assumption].
  rewrite RiskMore.column_sum_minus, Hi, Hp. reflexivity.
Qed.

Lemma total_outstanding_is_invoices_minus_payments_witness :
  let df := [Risk.mk_txn "Acme" "Invoice" 100;
             Risk.mk_txn "Bolt" "Invoice" (-300);
             Risk.mk_txn "Acme" "Payment" (-40);
             Risk.mk_txn "CSL" "Invoice" 900;
             Risk.mk_txn "Acme" "Invoice" 50] in
  exists rows,
    Risk.payment_behavior df = Some rows
    /\ Risk.total_outstanding rows
       == Risk.type_total "Invoice" (Risk.risk_df df)
          - Risk.type_total "Payment" (Risk.risk_df df)
    /\ Risk.type_total "Invoice" (Risk.risk_df df) == 450
    /\ Risk.type_total "Payment" (Risk.risk_df df) == 40.
Proof.
  intros df.
  destruct (Risk.payment_behavior df) as [rows|] eqn:E; [|discriminate].
  exists rows. split; [reflexivity|].
  split; [exact (proj1 (total_outstanding_is_invoices_minus_payments
                          df rows E))|].
  split; vm_compute; reflexivity.
Defined.

Module RiskScore.
Import Risk.

(** With a positive invoice total the score is the finite value of the
    published formula. *)
Lemma risk_score_formula (invoice payment invoice_max : Q) :
  0 < invoice -> invoice <= invoice_max ->
  exists score,
    risk_score invoice payment (Fin invoice_max) = Fin score
    /\ score == (4 # 10) * (1 - payment / invoice)
                + (3 # 10) * ((invoice - payment) / invoice_max)
                + (if Qltb (payment / invoice) (5 # 10) then 3 # 10 else 0).
Proof.
  intros Hinv Hmax.
  unfold risk_score. rewrite RiskFacts.payment_ratio_finite.
  unfold outstanding_balance.
  assert (Hguard : Qltb 0 invoice = true) by (apply Qltb_true; exact Hinv).
  rewrite Hguard.
  assert (Hnz : Qeq_bool invoice_max 0 = false)
    by (apply RiskFacts.Qeq_bool_false; lra).
  cbn [np_sub np_neg np_add np_mul np_div np_lt np_where].
  rewrite Hnz.
  destruct (Qltb (payment / invoice) (5 # 10));
    cbn [np_where np_add]; eexists; (split; [reflexivity | ring]).
Qed.

Lemma half_ratio (payment invoice : Q) :
  0 < invoice -> payment * 2 < invoice -> payment / invoice < 5 # 10.
Proof.
  intros Hinv Hhalf. apply Qlt_shift_div_r; [exact Hinv | lra].
Qed.

Lemma ratio_below_one (payment invoice : Q) :
  0 < invoice -> payment < invoice -> payment / invoice < 1.
Proof.
  intros Hinv Hlt. apply Qlt_shift_div_r; [exact Hinv | lra].
Qed.

Lemma ratio_positive (a b : Q) : 0 < a -> 0 < b -> 0 < a / b.
Proof.
  intros Ha Hb. apply Qlt_shift_div_l; [exact Hb | lra].
Qed.

End RiskScore.

(** A customer who has paid less than half of a positive invoice total is
    always classified "High Risk". *)
Theorem under_half_paid_is_high_risk
    (df : list Risk.txn) (rows : list Risk.behavior_row)
    (row : Risk.behavior_row) :
  Risk.payment_behavior df = Some rows ->
  In row rows ->
  0 < Risk.row_Invoice row ->
  Risk.row_Payment row * 2 < Risk.row_Invoice row ->
  Risk.row_risk_category row = Some "High Risk"%string.
Proof.
  intros Hsome Hin Hinv Hhalf.
  destruct (RiskTable.payment_behavior_row df rows row Hsome Hin)
    as [m [_ [Hpay [Hle [_ [_ [Hscore Hcat]]]]]]].
  destruct (RiskScore.risk_score_formula _ (Risk.row_Payment row) m Hinv Hle)
    as [score [Hfin Hval]].
  rewrite Hcat, Hscore, Hfin.
  pose proof (RiskScore.half_ratio _ _ Hinv Hhalf) as Hratio.
  pose proof (RiskFacts.ratio_nonneg _ _ Hpay Hinv) as Hratio0.
  assert (Hpen : Qltb (Risk.row_Payment row / Risk.row_Invoice row) (5 # 10)
                 = true) by (apply Qltb_true; exact Hratio).
  rewrite Hpen in Hval.
  assert (Hrel0 : 0 < (Risk.row_Invoice row - Risk.row_Payment row) / m)
    by (apply RiskScore.ratio_positive; lra).
  assert (Hrel1 : (Risk.row_Invoice row - Risk.row_Payment row) / m <= 1)
    by (apply RiskFacts.ratio_le_one; lra).
  set (p := Risk.row_Payment row / Risk.row_Invoice row) in *.
  set (b := (Risk.row_Invoice row - Risk.row_Payment row) / m) in *.
  assert (Hlo : 5 # 10 < score) by (rewrite Hval; lra).
  assert (Hhi : score <= 1) by (rewrite Hval; lra).
  rewrite RiskTable.risk_category_in_bins by lra.
  assert (H2 : Qle_bool score (2 # 10) = false).
  { destruct (Qle_bool score (2 # 10)) eqn:E; [|reflexivity].
    apply Qle_bool_iff in E. lra. }
  assert (H5 : Qle_bool score (5 # 10) = false).
  { destruct (Qle_bool score (5 # 10)) eqn:E; [|reflexivity].
    apply Qle_bool_iff in E. lra. }
  rewrite H2, H5. reflexivity.
Qed.

Lemma under_half_paid_is_high_risk_witness :
  let df := [Risk.mk_txn "Acme" "Invoice" 100;
             Risk.mk_txn "Acme" "Payment" (-40);
             Risk.mk_txn "Bolt" "Invoice" 1000;
             Risk.mk_txn "Bolt" "Payment" 990] in
  exists rows row,
    Risk.payment_behavior df = Some rows
    /\ nth_error rows 0 = Some row
    /\ Risk.customer row = "Acme"%string
    /\ Risk.row_risk_category row = Some "High Risk"%string.
Proof.
  intros df.
  destruct (Risk.payment_behavior df) as [rows|] eqn:E; [|discriminate].
  destruct (nth_error rows 0) as [row|] eqn:Hrow;
    [|vm_compute in E; injection E as <-; discriminate].
  exists rows, row. split; [reflexivity|]. split; [exact Hrow|].
  assert (Hrow' : row = Risk.mk_behavior_row
                          "Acme" 100 40 (Risk.row_payment_ratio row)
                          (Risk.row_outstanding_balance row)
                          (Risk.row_risk_score row)
                          (Risk.row_risk_category row)).
  { pose proof E as E'. vm_compute in E'. injection E' as <-.
    vm_compute in Hrow. injection Hrow as <-. reflexivity. }
  split; [rewrite Hrow'; reflexivity|].
  apply (under_half_paid_is_high_risk df rows row E
           (nth_error_In rows 0 Hrow)).
  - rewrite Hrow'. reflexivity.
  - rewrite Hrow'. reflexivity.
Defined.

(** Every customer with a positive outstanding balance receives a category:
    the score then lies in (0, 1], inside the bins. *)
Theorem outstanding_customer_is_categorised
    (df : list Risk.txn) (rows : list Risk.behavior_row)
    (row : Risk.behavior_row) :
  Risk.payment_behavior df = Some rows ->
  In row rows ->
  Risk.row_Payment row < Risk.row_Invoice row ->
  exists score label,
    Risk.row_risk_score row = Risk.Fin score
    /\ 0 < score /\ score <= 1
    /\ Risk.row_risk_category row = Some label
    /\ In label ["Low Risk"; "Medium Risk"; "High Risk"]%string.
Proof.
  intros Hsome Hin Hout.
  destruct (RiskTable.payment_behavior_row df rows row Hsome Hin)
    as [m [_ [Hpay [Hle [_ [_ [Hscore Hcat]]]]]]].
  assert (Hinv : 0 < Risk.row_Invoice row) by lra.
  destruct (RiskScore.risk_score_formula _ (Risk.row_Payment row) m Hinv Hle)
    as [score [Hfin Hval]].
  pose proof (RiskScore.ratio_below_one _ _ Hinv Hout) as Hratio.
  assert (Hrel0 : 0 < (Risk.row_Invoice row - Risk.row_Payment row) / m)
    by (apply RiskScore.ratio_positive; lra).
  assert (Hrel1 : (Risk.row_Invoice row - Risk.row_Payment row) / m <= 1)
    by (apply RiskFacts.ratio_le_one; lra).
  pose proof (RiskFacts.ratio_nonneg _ _ Hpay Hinv) as Hratio0.
  set (p := Risk.row_Payment row / Risk.row_Invoice row) in *.
  set (b := (Risk.row_Invoice row - Risk.row_Payment row) / m) in *.
  assert (Hbounds : 0 < score /\ score <= 1).
  { rewrite Hval. destruct (Qltb p (5 # 10)); split; lra. }
  destruct Hbounds as [Hlo Hhi].
  exists score.
  eexists. split; [rewrite Hscore; exact Hfin|].
  split; [exact Hlo|]. split; [exact Hhi|].
  rewrite Hcat, Hscore, Hfin.
  rewrite (RiskTable.risk_category_in_bins score Hlo Hhi).
  split; [reflexivity|].
  destruct (Qle_bool score (2 # 10)); [now left|].
  destruct (Qle_bool score (5 # 10)); [right; now left|].
  right; right; now left.
Qed.

Lemma outstanding_customer_is_categorised_witness :
  let df := [Risk.mk_txn "Bolt" "Invoice" 1000;
             Risk.mk_txn "Bolt" "Payment" 990] in
  exists rows row,
    Risk.payment_behavior df = Some rows
    /\ nth_error rows 0 = Some row
    /\ Risk.row_risk_category row = Some "Low Risk"%string.
Proof.
  intros df.
  destruct (Risk.payment_behavior df) as [rows|] eqn:E; [|discriminate].
  destruct (nth_error rows 0) as [row|] eqn:Hrow;
    [|vm_compute in E; injection E as <-; discriminate].
  exists rows, row. split; [reflexivity|]. split; [exact Hrow|].
  assert (Hout : Risk.row_Payment row < Risk.row_Invoice row).
  { pose proof E as E'. vm_compute in E'. injection E' as <-.
    vm_compute in Hrow. injection Hrow as <-. reflexivity. }
  destruct (outstanding_customer_is_categorised
              df rows row E (nth_error_In rows 0 Hrow) Hout)
    as [score [label [_ [_ [_ [Hcat _]]]]]].
  rewrite Hcat. f_equal.
  pose proof E as E'. vm_compute in E'. injection E' as <-.
  vm_compute in Hrow. injection Hrow as <-.
  vm_compute in Hcat. injection Hcat as <-. reflexivity.
Defined.

(** * Properties of the cash-flow analysis *)

Module CashFlowFacts.
Import CashFlow.

Lemma add_to_day_dates (day : Z) (r : txn) (days : list daily_row) (x : Z) :
  In x (map date (add_to_day day r days)) <->
  x = day \/ In x (map date days).
Proof.
  induction days as [|d rest IH]; cbn [add_to_day].
  - cbn. intuition auto.
  - destruct (day <? date d)%Z eqn:Elt.
    + cbn [map date In]. intuition auto.
    + destruct (day =? date d)%Z eqn:Eeq.
      * apply Z.eqb_eq in Eeq. cbn [map date In]. rewrite <- Eeq.
        intuition auto.
      * cbn [map In]. rewrite IH. intuition auto.
Qed.

Lemma add_to_day_HdRel (a day : Z) (r : txn) (days : list daily_row) :
  (a < day)%Z ->
  HdRel Z.lt a (map date days) ->
  HdRel Z.lt a (map date (add_to_day day r days)).
Proof.
  intros Ha Hhd. destruct days as [|d rest]; cbn [add_to_day].
  - constructor. exact Ha.
  - destruct (day <? date d)%Z; [constructor; exact Ha|].
    destruct (day =? date d)%Z; [constructor; exact Ha|].
    cbn [map] in *. inversion Hhd; subst. constructor. assumption.
Qed.

Lemma add_to_day_sorted (day : Z) (r : txn) (days : list daily_row) :
  Sorted Z.lt (map date days) ->
  Sorted Z.lt (map date (add_to_day day r days)).
Proof.
  induction days as [|d rest IH]; intros Hs; cbn [add_to_day].
  - repeat constructor.
  - destruct (day <? date d)%Z eqn:Elt.
    + apply Z.ltb_lt in Elt. cbn [map date]. constructor; [exact Hs|].
      constructor. exact Elt.
    + destruct (day =? date d)%Z eqn:Eeq.
      * apply Z.eqb_eq in Eeq. cbn [map date] in *. rewrite Eeq. exact Hs.
      * apply Z.ltb_ge in Elt. apply Z.eqb_neq in Eeq.
        cbn [map] in *. inversion Hs; subst.
        constructor; [apply IH; assumption|].
        apply add_to_day_HdRel; [lia | assumption].
Qed.

Lemma add_to_day_total (day : Z) (r : txn) (days : list daily_row) :
  Risk.column_sum (map net_cash_flow (add_to_day day r days))
  == Risk.column_sum (map net_cash_flow days) + sum_cell (cash_impact r).
Proof.
  induction days as [|d rest IH]; cbn [add_to_day].
  - cbn [map net_cash_flow Risk.column_sum]. ring.
  - destruct (day <? date d)%Z.
    + cbn [map net_cash_flow Risk.column_sum]. ring.
    + destruct (day =? date d)%Z.
      * cbn [map net_cash_flow Risk.column_sum]. ring.
      * cbn [map Risk.column_sum]. rewrite IH. ring.
Qed.

Lemma add_to_day_count (day : Z) (r : txn) (days : list daily_row) :
  list_sum (map transaction_count (add_to_day day r days))
  = (list_sum (map transaction_count days)
     + count_cell (total_amount r))%nat.
Proof.
  unfold list_sum.
  induction days as [|d rest IH]; cbn [add_to_day].
  - cbn [map transaction_count fold_right]. lia.
  - destruct (day <? date d)%Z.
    + cbn [map transaction_count fold_right]. lia.
    + destruct (day =? date d)%Z.
      * cbn [map transaction_count fold_right]. lia.
      * cbn [map fold_right]. rewrite IH. lia.
Qed.

Lemma add_to_day_nonempty (day : Z) (r : txn) (days : list daily_row) :
  add_to_day day r days <> [].
Proof.
  destruct days as [|d rest]; cbn [add_to_day]; [discriminate|].
  destruct (day <? date d)%Z; [discriminate|].
  destruct (day =? date d)%Z; discriminate.
Qed.

Lemma fold_step_dates (df : list txn) :
  forall days x,
    In x (map date (fold_left step df days)) <->
    In x (map date days)
    \/ exists r t, In r df /\ txn_date r = Some t
                   /\ Forecast.calendar_day t = x.
Proof.
  induction df as [|r df IH]; intros days x; cbn [fold_left].
  - split; [auto | intros [H | [r [t [[] _]]]]; exact H].
  - rewrite IH.
    assert (Hstep : In x (map date (step days r)) <->
                    In x (map date days)
                    \/ exists t, txn_date r = Some t
                                 /\ Forecast.calendar_day t = x).
    { unfold step. destruct (txn_date r) as [t|].
      - rewrite add_to_day_dates. split.
        + intros [-> | H]; [right; exists t; auto | now left].
        + intros [H | [t' [Ht Hday]]]; [now right|].
          injection Ht as <-. left. auto.
      - split; [auto | intros [H | [t' [Ht _]]]; [exact H | discriminate]]. }
    rewrite Hstep. split.
    + intros [[H | [t [Ht Hday]]] | [r' [t' [Hin H]]]].
      * now left.
      * right. exists r, t. split; [now left | auto].
      * right. exists r', t'. split; [now right | exact H].
    + intros [H | [r' [t' [[<- | Hin] [Ht Hday]]]]].
      * left. now left.
      * left. right. exists t'. auto.
      * right. exists r', t'. auto.
Qed.

Lemma fold_step_sorted (df : list txn) :
  forall days,
    Sorted Z.lt (map date days) ->
    Sorted Z.lt (map date (fold_left step df days)).
Proof.
  induction df as [|r df IH]; intros days Hs; cbn [fold_left].
  - exact Hs.
  - apply IH. unfold step. destruct (txn_date r); [|exact Hs].
    apply add_to_day_sorted, Hs.
Qed.

Lemma fold_step_total (df : list txn) :
  forall days,
    Risk.column_sum (map net_cash_flow (fold_left step df days))
    == Risk.column_sum (map net_cash_flow days) + dated_cash_impact df.
Proof.
  induction df as [|r df IH]; intros days; cbn [fold_left dated_cash_impact].
  - ring.
  - rewrite IH. unfold step. destruct (txn_date r).
    + rewrite add_to_day_total. ring.
    + reflexivity.
Qed.

Lemma fold_step_count (df : list txn) :
  forall days,
    list_sum (map transaction_count (fold_left step df days))
    = (list_sum (map transaction_count days)
       + List.length
           (filter (fun r => Forecast.notna (txn_date r)
                             && Forecast.notna (total_amount r)) df))%nat.
Proof.
  induction df as [|r df IH]; intros days; cbn [fold_left filter].
  - cbn. lia.
  - rewrite IH. unfold step.
    destruct (txn_date r); cbn [Forecast.notna andb].
    + rewrite add_to_day_count.
      destruct (total_amount r); cbn [Forecast.notna count_cell List.length];
        lia.
    + lia.
Qed.

Lemma fold_step_empty (df : list txn) :
  forall days,
    fold_left step df days = [] <->
    days = [] /\ forall r, In r df -> txn_date r = None.
Proof.
  induction df as [|r df IH]; intros days; cbn [fold_left].
  - split; [intros ->; split; [reflexivity | intros r []] | tauto].
  - rewrite IH. unfold step. destruct (txn_date r) as [t|] eqn:Et.
    + split.
      * intros [H _]. exfalso. exact (add_to_day_nonempty _ _ _ H).
      * intros [_ H]. specialize (H r (or_introl eq_refl)). congruence.
    + split.
      * intros [-> H]. split; [reflexivity|].
        intros r' [<- | Hr']; [exact Et | exact (H r' Hr')].
      * intros [-> H]. split; [reflexivity|].
        intros r' Hr'. apply H. now right.
Qed.

Lemma last_cons_shift {A : Type} (x : A) (l : list A) (d : A) :
  last (x :: l) d = last l x.
Proof.
  revert x d. induction l as [|y l IH]; intros x d.
  - reflexivity.
  - change (last (x :: y :: l) d) with (last (y :: l) d).
    rewrite (IH y d), (IH y x). reflexivity.
Qed.

Lemma last_cumsum_from (column : list Q) :
  forall acc,
    last (cumsum_from acc column) acc == acc + Risk.column_sum column.
Proof.
  induction column as [|x rest IH]; intros acc;
    cbn [cumsum_from Risk.column_sum].
  - cbn [last]. ring.
  - rewrite last_cons_shift, IH. ring.
Qed.

Lemma last_cumulative_total (daily : list daily_row) (x : Q)
    (rest : list Q) :
  cumulative_cash_flow daily = x :: rest ->
  last rest x == Risk.column_sum (map net_cash_flow daily).
Proof.
  unfold cumulative_cash_flow, cumsum.
  destruct (map net_cash_flow daily) as [|y column]; [discriminate|].
  intros H. injection H as <- <-. cbn [Risk.column_sum].
  rewrite last_cumsum_from. reflexivity.
Qed.

Lemma cumulative_empty (daily : list daily_row) :
  cumulative_cash_flow daily = [] <-> daily = [].
Proof.
  unfold cumulative_cash_flow, cumsum.
  destruct daily as [|d rest]; cbn [map].
  - split; reflexivity.
  - split; discriminate.
Qed.

Lemma series_min_none (column : list (option Z)) :
  Forecast.series_min column = None <->
  forall x, In x column -> x = None.
Proof.
  unfold Forecast.series_min.
  induction column as [|[t|] column IH]; cbn [Forecast.present].
  - split; [intros _ x [] | reflexivity].
  - split; [discriminate|].
    intros H. specialize (H (Some t) (or_introl eq_refl)). discriminate.
  - rewrite IH. split.
    + intros H x [<- | Hx]; [reflexivity | exact (H x Hx)].
    + intros H x Hx. apply H. now right.
Qed.

Lemma undated_frame (rows : list txn) :
  Forecast.series_min (map txn_date rows) = None <->
  forall r, In r rows -> txn_date r = None.
Proof.
  rewrite series_min_none. split.
  - intros H r Hr. apply H. apply in_map. exact Hr.
  - intros H x Hx. apply in_map_iff in Hx as [r [<- Hr]]. exact (H r Hr).
Qed.

End CashFlowFacts.

(** The daily cash-flow table has one row per calendar day on which some
    transaction is dated, in strictly increasing order of the day. *)
Theorem daily_cash_flow_one_row_per_day (df : list CashFlow.txn) :
  Sorted Z.lt (map CashFlow.date (CashFlow.daily_cash_flow df))
  /\ forall day,
       In day (map CashFlow.date (CashFlow.daily_cash_flow df)) <->
       exists r t, In r df
                   /\ CashFlow.txn_date r = Some t
                   /\ Forecast.calendar_day t = day.
Proof.
  unfold CashFlow.daily_cash_flow. split.
  - apply CashFlowFacts.fold_step_sorted. constructor.
  - intros day. rewrite CashFlowFacts.fold_step_dates. cbn [map In].
    tauto.
Qed.


(** * Properties of the audit checks and of the join *)

Module AuditFacts.
Import Combine.
Import Audit.

Lemma lstrip_blank (s : string) : blank (lstrip s) <-> blank s.
Proof.
  unfold blank. induction s as [|c s IH]; cbn [lstrip].
  - tauto.
  - destruct (is_space c) eqn:E.
    + rewrite IH. cbn [list_ascii_of_string]. split.
      * intros H. constructor; assumption.
      * intros H. inversion H; assumption.
    + tauto.
Qed.

Lemma lstrip_empty (s : string) : lstrip s = ""%string <-> blank s.
Proof.
  unfold blank. induction s as [|c s IH]; cbn [lstrip].
  - split; [constructor | reflexivity].
  - destruct (is_space c) eqn:E.
    + rewrite IH. cbn [list_ascii_of_string]. split.
      * intros H. constructor; assumption.
      * intros H. inversion H; assumption.
    + split; [discriminate|].
      cbn [list_ascii_of_string]. intros H. inversion H. congruence.
Qed.

Lemma reverse_chars (s : string) :
  list_ascii_of_string (reverse s) = rev (list_ascii_of_string s).
Proof.
  unfold reverse. apply list_ascii_of_string_of_list_ascii.
Qed.

Lemma reverse_blank (s : string) : blank (reverse s) <-> blank s.
Proof.
  unfold blank. rewrite reverse_chars. split.
  - intros H. apply Forall_rev in H. rewrite rev_involutive in H. exact H.
  - apply Forall_rev.
Qed.

Lemma reverse_empty (s : string) : reverse s = ""%string <-> s = ""%string.
Proof.
  split.
  - intros H.
    assert (Hc : list_ascii_of_string (reverse s) = []) by (rewrite H; reflexivity).
    rewrite reverse_chars in Hc.
    destruct s as [|c s]; [reflexivity|].
    cbn [list_ascii_of_string rev] in Hc.
    destruct (rev (list_ascii_of_string s)); discriminate.
  - intros ->. reflexivity.
Qed.

(** [strip()] leaves nothing exactly for blank strings. *)
Lemma strip_empty (s : string) : strip s = ""%string <-> blank s.
Proof.
  unfold strip, rstrip.
  rewrite reverse_empty, lstrip_empty, reverse_blank, lstrip_blank.
  tauto.
Qed.

End AuditFacts.

Module AuditCounts.
Import Audit.

Lemma duplicated_after_none (seen column : list string) :
  filter (fun b => b) (duplicated_after seen column) = [] <->
  NoDup column /\ forall x, In x column -> ~ In x seen.
Proof.
  revert seen. induction column as [|x rest IH]; intros seen;
    cbn [duplicated_after filter].
  - split; [intros _; split; [constructor | intros x []] | reflexivity].
  - destruct (isin x seen) eqn:E.
    + split; [discriminate|].
      intros [_ H]. exfalso. apply (H x); [now left|].
      apply isin_In. exact E.
    + rewrite IH. split.
      * intros [Hnd Hseen]. split.
        -- constructor; [|exact Hnd].
           intros Hin. apply (Hseen x Hin). now left.
        -- intros y [<- | Hy] Hin.
           ++ apply isin_In in Hin. congruence.
           ++ apply (Hseen y Hy). now right.
      * intros [Hnd Hseen]. inversion Hnd as [|? ? Hnotin Hnd']; subst.
        split; [exact Hnd'|].
        intros y Hy [<- | Hin].
        -- contradiction.
        -- apply (Hseen y); [now right | exact Hin].
Qed.

Lemma filter_length_le {A : Type} (f : A -> bool) (l : list A) :
  (List.length (filter f l) <= List.length l)%nat.
Proof.
  induction l as [|x l IH]; cbn [filter List.length].
  - lia.
  - destruct (f x); cbn [List.length]; lia.
Qed.

End AuditCounts.

(** The audit flags a loan id as missing exactly when it is null or blank
    (empty or made of whitespace only); the separate test against the empty
    string adds nothing. *)
Theorem missing_loan_id_iff_null_or_blank (loan_id : option string) :
  Combine.missing_loan_id loan_id = true
  <-> match loan_id with
      | None => True
      | Some s => Audit.blank s
      end.
Proof.
  unfold Combine.missing_loan_id. destruct loan_id as [s|]; cbn [Combine.isna
    Combine.astype_str orb]; [|tauto].
  rewrite orb_true_iff, !String.eqb_eq, AuditFacts.strip_empty.
  split; [|auto].
  intros [-> | H]; [constructor | exact H].
Qed.



Module JoinFacts.
Import Combine.

Lemma unique_key_matches_once (key : string) (mca : list (Z * string)) :
  NoDup (map snd mca) ->
  (List.length (filter (fun m => String.eqb key (snd m)) mca) <= 1)%nat.
Proof.
  induction mca as [|m mca IH]; intros Hnd; cbn [filter].
  - cbn. lia.
  - cbn [map] in Hnd. inversion Hnd as [|? ? Hnotin Hnd']; subst.
    specialize (IH Hnd').
    destruct (String.eqb key (snd m)) eqn:E; [|exact IH].
    apply String.eqb_eq in E. subst key. cbn [List.length].
    assert (Hnone : filter (fun m0 => String.eqb (snd m) (snd m0)) mca = []).
    { destruct (filter (fun m0 => String.eqb (snd m) (snd m0)) mca)
        as [|m' rest] eqn:F; [reflexivity|].
      assert (Hin : In m' (filter (fun m0 => String.eqb (snd m) (snd m0))
                                  mca))
        by (rewrite F; now left).
      apply filter_In in Hin as [Hin Heq]. apply String.eqb_eq in Heq.
      exfalso. apply Hnotin. rewrite Heq. apply in_map. exact Hin. }
    rewrite Hnone. cbn. lia.
Qed.

Lemma merge_inner_length (deals mca : list (Z * string)) :
  NoDup (map snd mca) ->
  (List.length (merge_inner deals mca) <= List.length deals)%nat.
Proof.
  intros Hnd. unfold merge_inner.
  induction deals as [|d deals IH]; cbn [flat_map List.length].
  - lia.
  - rewrite length_app, length_map.
    pose proof (unique_key_matches_once (snd d) mca Hnd). lia.
Qed.

End JoinFacts.

(** The join returns only when both tables have rows: an empty deals table
    raises [KeyError] for "loan_id" and an empty MCA table raises it for
    "deal_number".  When it returns, every row has equal keys on both
    sides, and if the MCA deal numbers are pairwise distinct as text every
    deal is joined at most once, so the output has no more rows than there
    are deals with a loan id. *)
Theorem combine_deals_fan_out
    (deals : list Combine.deal) (mca : list Combine.mca_deal) :
  Combine.combine_deals [] mca = Combine.KeyError "loan_id"
  /\ (deals <> [] ->
      Combine.combine_deals deals [] = Combine.KeyError "deal_number")
  /\ ((exists rows, Combine.combine_deals deals mca = Combine.Ok rows)
      <-> deals <> [] /\ mca <> [])
  /\ (forall rows,
         Combine.combine_deals deals mca = Combine.Ok rows ->
         (forall row,
             In row rows ->
             Combine.combined_loan_id row = Combine.combined_deal_number row)
         /\ (NoDup (map (fun m => Combine.astype_str (Combine.deal_number m))
                        mca) ->
             (List.length rows
              <= List.length (Combine.dropna_loan_id deals))%nat
             /\ (List.length rows <= List.length deals)%nat)).
Proof.
  split; [reflexivity|]. split; [|split].
  - intros Hne. destruct deals as [|d deals]; [contradiction|]. reflexivity.
  - split.
    + intros [rows Hok].
      apply CombineFacts.combine_deals_ok in Hok as [Hd [Hm _]]. auto.
    + intros [Hd Hm]. exists (Combine.join_deals deals mca).
      apply CombineFacts.combine_deals_ok. auto.
  - intros rows Hok.
    apply CombineFacts.combine_deals_ok in Hok as [_ [_ ->]]. split.
    + intros row Hrow.
      apply CombineFacts.combine_deals_rows in Hrow
        as [d [m [key [_ [_ [_ [_ ->]]]]]]].
      reflexivity.
    + intros Hnd. unfold Combine.join_deals.
      assert (Hkeys : NoDup
                        (map snd
                             (map (fun m => (Combine.mca_id m,
                                             Combine.astype_str
                                               (Combine.deal_number m)))
                                  mca))).
      { rewrite map_map. cbn [snd]. exact Hnd. }
      pose proof (JoinFacts.merge_inner_length
                    (map (fun d => (Combine.deal_id d,
                                    Combine.astype_str (Combine.loan_id d)))
                         (Combine.dropna_loan_id deals))
                    _ Hkeys) as Hlen.
      rewrite length_map in Hlen.
      split; [exact Hlen|].
      pose proof (AuditCounts.filter_length_le
                    (fun d => negb (Combine.isna (Combine.loan_id d))) deals).
      unfold Combine.dropna_loan_id in Hlen |- *. lia.
Qed.

(** When the net flow per period is not negative and the first period can
    afford the full deployment without touching the reserve, the throttle
    never fires, whatever the horizon, and the headline ending cash is the
    last cash position of the projection table. *)
Theorem throttle_idle_with_positive_flow
    (deployment_rate inflow_rate opex_rate starting_cash min_cash_threshold : Q)
    (forecast_horizon : nat) :
  0 <= net_flow_per_period deployment_rate inflow_rate opex_rate ->
  min_cash_threshold <= starting_cash - deployment_rate - opex_rate ->
  never_throttled deployment_rate inflow_rate opex_rate min_cash_threshold
                  forecast_horizon starting_cash = true
  /\ final_cash_position
       starting_cash
       (forecast_data deployment_rate inflow_rate opex_rate starting_cash
                      min_cash_threshold forecast_horizon)
     == ending_cash deployment_rate inflow_rate opex_rate starting_cash
                    forecast_horizon.
Proof.
  intros Hnet Hfirst.
  assert (Hnever : forall n c,
             min_cash_threshold <= c - deployment_rate - opex_rate ->
             never_throttled deployment_rate inflow_rate opex_rate
                             min_cash_threshold n c = true).
  { induction n as [|n IH]; intros c Hc; cbn [never_throttled].
    - reflexivity.
    - assert (Hguard : throttled deployment_rate opex_rate
                                 min_cash_threshold c = false)
        by (apply Qltb_false; exact Hc).
      rewrite Hguard. cbn [negb andb]. apply IH.
      unfold forecast_step. unfold throttled in Hguard. rewrite Hguard.
      cbn [cash_position]. unfold net_flow_per_period in Hnet. lra. }
  pose proof (Hnever forecast_horizon starting_cash Hfirst) as H.
  split; [exact H|].
  unfold ending_cash.
  rewrite <- (ForecastFacts.forecast_loop_unthrottled _ _ _ _ _ _ H).
  unfold final_cash_position, forecast_data, starting_row.
  destruct forecast_horizon as [|h]; [reflexivity|].
  match goal with
  | |- cash_position (last (?r :: ?l) ?d) == _ =>
      change (last (r :: l) d) with (last l d)
  end.
  reflexivity.
Qed.

Lemma throttle_idle_with_positive_flow_witness :
  0 <= net_flow_per_period 10000 15000 2500
  /\ 100000 <= 500000 - 10000 - 2500
  /\ never_throttled 10000 15000 2500 100000 52 500000 = true
  /\ final_cash_position
       500000 (forecast_data 10000 15000 2500 500000 100000 52)
     == ending_cash 10000 15000 2500 500000 52.
Proof.
  assert (H1 : 0 <= net_flow_per_period 10000 15000 2500)
    by (vm_compute; discriminate).
  assert (H2 : 100000 <= 500000 - 10000 - 2500)
    by (vm_compute; discriminate).
  split; [exact H1|]. split; [exact H2|].
  exact (throttle_idle_with_positive_flow
           10000 15000 2500 500000 100000 52 H1 H2).
Defined.

(** * Properties of the EDA page *)

(** The enhanced analysis always gives a label: "High Risk" when there are
    no invoices or less than half of them is paid, "Low Risk" when at least
    80% is paid, "Medium Risk" in between. *)
Theorem enhanced_risk_label (total_invoiced total_payments : Q) :
  (total_invoiced <= 0 ->
   EDA.risk_score total_invoiced total_payments = "High Risk"%string)
  /\ (0 < total_invoiced ->
      (total_payments * 2 < total_invoiced ->
       EDA.risk_score total_invoiced total_payments = "High Risk"%string)
      /\ (total_invoiced <= total_payments * 2 ->
          total_payments * 10 < total_invoiced * 8 ->
          EDA.risk_score total_invoiced total_payments
          = "Medium Risk"%string)
      /\ (total_invoiced * 8 <= total_payments * 10 ->
          EDA.risk_score total_invoiced total_payments
          = "Low Risk"%string)).
Proof.
  unfold EDA.risk_score, EDA.payment_ratio.
  fold (Risk.payment_ratio total_invoiced total_payments).
  rewrite RiskFacts.payment_ratio_finite.
  split.
  - intros Hle.
    assert (H : Qltb 0 total_invoiced = false) by (apply Qltb_false; lra).
    rewrite H. reflexivity.
  - intros Hpos.
    assert (H : Qltb 0 total_invoiced = true) by (apply Qltb_true; lra).
    rewrite H. cbn [Risk.np_lt].
    assert (Hlt : forall k, total_payments < k * total_invoiced ->
                            Qltb (total_payments / total_invoiced) k = true).
    { intros k Hk. apply Qltb_true.
      apply Qlt_shift_div_r; [exact Hpos | exact Hk]. }
    assert (Hge : forall k, k * total_invoiced <= total_payments ->
                            Qltb (total_payments / total_invoiced) k = false).
    { intros k Hk. apply Qltb_false.
      apply Qle_shift_div_l; [exact Hpos | exact Hk]. }
    split; [|split].
    + intros Hhalf. rewrite (Hlt (5 # 10)) by lra. reflexivity.
    + intros Hhalf Hmost.
      rewrite (Hge (5 # 10)) by lra. rewrite (Hlt (8 # 10)) by lra.
      reflexivity.
    + intros Hmost.
      rewrite (Hge (5 # 10)) by lra. rewrite (Hge (8 # 10)) by lra.
      reflexivity.
Qed.


(** * The cash floor, period by period *)

Module FloorFacts.
Import Forecast.

(** With non-negative deployment and inflow rates, a period ends at or above
    the reserve exactly when it could do so with no deployment at all. *)
Lemma forecast_step_floor_iff
    (deployment_rate inflow_rate opex_rate min_cash_threshold c : Q) :
  0 <= deployment_rate ->
  0 <= inflow_rate ->
  min_cash_threshold
  <= cash_position (forecast_step deployment_rate inflow_rate opex_rate
                                  min_cash_threshold c)
  <-> min_cash_threshold <= c + inflow_rate - opex_rate.
Proof.
  intros Hdep Hin. split.
  - unfold forecast_step. cbn [cash_position].
    destruct (Qltb (c - deployment_rate - opex_rate) min_cash_threshold)
      eqn:Hguard.
    + unfold py_max.
      destruct (Qltb 0 (c - min_cash_threshold - opex_rate)) eqn:Hpos.
      * apply Qltb_true in Hpos. intros _. lra.
      * intros H. lra.
    + apply Qltb_false in Hguard. intros _. lra.
  - apply ForecastFacts.forecast_step_floor. exact Hin.
Qed.

Lemma forecast_data_length
    (deployment_rate inflow_rate opex_rate starting_cash min_cash_threshold : Q)
    (forecast_horizon : nat) :
  List.length (forecast_data deployment_rate inflow_rate opex_rate
                             starting_cash min_cash_threshold
                             forecast_horizon)
  = S forecast_horizon.
Proof.
  unfold forecast_data. cbn [List.length]. f_equal.
  apply ForecastFacts.forecast_loop_length.
Qed.

End FloorFacts.

(** C1 (as amended).  For non-negative deployment and inflow rates, the cash
    position recorded for a period is at or above the minimum reserve
    exactly when the floor is feasible for that period, that is when the
    previous cash position plus inflows minus operating expenses is at or
    above the reserve (the balance a deployment throttled down to zero
    leaves).  Hence a run keeps every recorded cash position at or above the
    reserve if and only if it starts at or above it and every period is
    feasible in this sense. *)
Theorem cash_floor_kept_whenever_feasible
    (deployment_rate inflow_rate opex_rate starting_cash min_cash_threshold : Q)
    (forecast_horizon : nat) :
  0 <= deployment_rate ->
  0 <= inflow_rate ->
  let rows := forecast_data deployment_rate inflow_rate opex_rate
                            starting_cash min_cash_threshold
                            forecast_horizon in
  (forall i prev row,
      nth_error rows i = Some prev ->
      nth_error rows (S i) = Some row ->
      (min_cash_threshold <= cash_position row
       <-> min_cash_threshold
           <= cash_position prev + inflow_rate - opex_rate))
  /\ ((forall row, In row rows -> min_cash_threshold <= cash_position row)
      <-> min_cash_threshold <= starting_cash
          /\ forall i prev,
               (i < forecast_horizon)%nat ->
               nth_error rows i = Some prev ->
               min_cash_threshold
               <= cash_position prev + inflow_rate - opex_rate).
Proof.
  intros Hdep Hin rows.
  assert (Hstep : forall i prev row,
             nth_error rows i = Some prev ->
             nth_error rows (S i) = Some row ->
             (min_cash_threshold <= cash_position row
              <-> min_cash_threshold
                  <= cash_position prev + inflow_rate - opex_rate)).
  { intros i prev row Hprev Hrow. subst rows.
    unfold forecast_data, starting_row in Hprev, Hrow.
    cbn [nth_error] in Hrow.
    pose proof (ForecastMore.forecast_loop_succ
                  deployment_rate inflow_rate opex_rate min_cash_threshold
                  forecast_horizon starting_cash i prev row Hprev Hrow) as ->.
    apply FloorFacts.forecast_step_floor_iff; assumption. }
  assert (Hlen : List.length rows = S forecast_horizon)
    by apply FloorFacts.forecast_data_length.
  split; [exact Hstep|]. split.
  - intros Hall. split.
    + apply (Hall (starting_row starting_cash)). now left.
    + intros i prev Hi Hprev.
      destruct (nth_error rows (S i)) as [row|] eqn:Hrow.
      * apply (Hstep i prev row Hprev Hrow).
        apply Hall. exact (nth_error_In rows (S i) Hrow).
      * apply nth_error_None in Hrow. lia.
  - intros [Hstart Hfeasible] row Hrow.
    apply In_nth_error in Hrow as [j Hj].
    destruct j as [|i].
    + subst rows. cbn [forecast_data nth_error] in Hj.
      injection Hj as <-. exact Hstart.
    + assert (Hi : (i < forecast_horizon)%nat).
      { assert (S i < List.length rows)%nat
          by (apply nth_error_Some; congruence).
        lia. }
      destruct (nth_error rows i) as [prev|] eqn:Hprev.
      * apply (Hstep i prev row Hprev Hj).
        exact (Hfeasible i prev Hi Hprev).
      * apply nth_error_None in Hprev. lia.
Qed.

Lemma cash_floor_kept_whenever_feasible_witness :
  0 <= 10000 /\ 0 <= 0
  /\ exists prev row,
       nth_error (forecast_data 10000 0 2500 500000 100000 26) 25 = Some prev
       /\ nth_error (forecast_data 10000 0 2500 500000 100000 26) 26
          = Some row
       /\ 100000 <= cash_position prev + 0 - 2500
       /\ 100000 <= cash_position row.
Proof.
  assert (H1 : 0 <= 10000) by (vm_compute; discriminate).
  assert (H2 : (0 : Q) <= 0) by (vm_compute; discriminate).
  split; [exact H1|]. split; [exact H2|].
  destruct (nth_error (forecast_data 10000 0 2500 500000 100000 26) 25)
    as [prev|] eqn:Hprev; [|discriminate].
  destruct (nth_error (forecast_data 10000 0 2500 500000 100000 26) 26)
    as [row|] eqn:Hrow; [|discriminate].
  exists prev, row.
  split; [reflexivity|]. split; [reflexivity|].
  assert (Hfeasible : 100000 <= cash_position prev + 0 - 2500).
  { pose proof Hprev as H. vm_compute in H. injection H as <-.
    vm_compute. discriminate. }
  split; [exact Hfeasible|].
  exact (proj2 (proj1 (cash_floor_kept_whenever_feasible
                         10000 0 2500 500000 100000 26 H1 H2)
                      25%nat prev row Hprev Hrow)
               Hfeasible).
Defined.
